(** * JustServers: the supervised server process ([core/process.py])

    A shallow embedding of the class [ServerProcess], which owns at most
    one child process (a Java game server) and offers [is_running],
    [start], [stop], [write_command] and [stream_logs].

    The Python methods are written in a small monad that threads the
    [ServerProcess] object, may raise a Python exception, and records the
    calls made to the operating system (spawn, pipe write, drain, bounded
    wait, kill) in a trace.  What the operating system and the child answer
    to those calls is a parameter of every method. *)

From Stdlib Require Import List Bool NArith ZArith QArith Lia.
From Stdlib Require Import Strings.String Strings.Ascii Strings.Byte.
Import ListNotations.

Local Open Scope N_scope.
Local Open Scope list_scope.

(* ================================================================== *)
(** ** Text and bytes *)
(* ================================================================== *)

(** A Python [str] is a sequence of code points; [bytes] is a sequence of
    octets. *)
Definition str := list N.
Definition bytes := list byte.

(** A literal of the source, read as a [str]. *)
Definition py (s : string) : str :=
  List.map N_of_ascii (list_ascii_of_string s).

(** A literal of the source, read as [bytes]. *)
Definition pyb (s : string) : bytes := list_byte_of_string s.

Definition octet (n : N) : byte :=
  match Byte.of_N n with
  | Some b => b
  | None => x00
  end.

Module Utf8.

Definition is_surrogate (c : N) : bool := (0xD800 <=? c) && (c <=? 0xDFFF).

Definition cont (c : N) (shift : N) : byte :=
  octet (N.lor 0x80 (N.land (N.shiftr c shift) 0x3F)).

(** [str.encode()] on one code point; [None] is [UnicodeEncodeError]
    (a lone surrogate; a value above U+10FFFF is no code point). *)
Definition encode_cp (c : N) : option bytes :=
  if c <? 0x80 then Some [octet c]
  else if c <? 0x800 then
    Some [octet (N.lor 0xC0 (N.shiftr c 6)); cont c 0]
  else if c <? 0x10000 then
    if is_surrogate c then None
    else Some [octet (N.lor 0xE0 (N.shiftr c 12)); cont c 6; cont c 0]
  else if c <? 0x110000 then
    Some [octet (N.lor 0xF0 (N.shiftr c 18)); cont c 12; cont c 6; cont c 0]
  else None.

Fixpoint encode (s : str) : option bytes :=
  match s with
  | [] => Some []
  | c :: s' =>
      match encode_cp c, encode s' with
      | Some b, Some bs => Some (b ++ bs)
      | _, _ => None
      end
  end.

(** The strict decoder behind [bytes.decode('utf-8')], one octet at a
    time.  [Cont k acc lo hi]: inside a sequence, the next octet must lie
    in [lo..hi], and [k] more continuation octets follow it. *)
Inductive dstate :=
| Start
| Cont (k : nat) (acc lo hi : N).

Definition lead (b : N) : option (dstate + N) :=
  if b <? 0x80 then Some (inr b)
  else if b <? 0xC2 then None
  else if b <? 0xE0 then Some (inl (Cont 0 (N.land b 0x1F) 0x80 0xBF))
  else if b =? 0xE0 then Some (inl (Cont 1 0 0xA0 0xBF))
  else if b =? 0xED then Some (inl (Cont 1 0xD 0x80 0x9F))
  else if b <? 0xF0 then Some (inl (Cont 1 (N.land b 0x0F) 0x80 0xBF))
  else if b =? 0xF0 then Some (inl (Cont 2 0 0x90 0xBF))
  else if b <? 0xF4 then Some (inl (Cont 2 (N.land b 0x07) 0x80 0xBF))
  else if b =? 0xF4 then Some (inl (Cont 2 4 0x80 0x8F))
  else None.

(** [None] is [UnicodeDecodeError]. *)
Fixpoint decode_from (st : dstate) (bs : bytes) : option str :=
  match bs with
  | [] => match st with Start => Some [] | Cont _ _ _ _ => None end
  | b :: bs' =>
      let n := Byte.to_N b in
      match st with
      | Start =>
          match lead n with
          | None => None
          | Some (inr c) => option_map (cons c) (decode_from Start bs')
          | Some (inl st') => decode_from st' bs'
          end
      | Cont k acc lo hi =>
          if (lo <=? n) && (n <=? hi) then
            let acc' := N.lor (N.shiftl acc 6) (N.land n 0x3F) in
            match k with
            | O => option_map (cons acc') (decode_from Start bs')
            | S k' => decode_from (Cont k' acc' 0x80 0xBF) bs'
            end
          else None
      end
  end.

Definition decode (bs : bytes) : option str := decode_from Start bs.

End Utf8.

(** [str.isspace] on one code point: the characters [str.strip()] removes. *)
Definition is_space (c : N) : bool :=
  ((0x09 <=? c) && (c <=? 0x0D))
  || ((0x1C <=? c) && (c <=? 0x20))
  || (c =? 0x85) || (c =? 0xA0) || (c =? 0x1680)
  || ((0x2000 <=? c) && (c <=? 0x200A))
  || (c =? 0x2028) || (c =? 0x2029) || (c =? 0x202F)
  || (c =? 0x205F) || (c =? 0x3000).

Fixpoint lstrip (s : str) : str :=
  match s with
  | [] => []
  | c :: s' => if is_space c then lstrip s' else s
  end.

Definition rstrip (s : str) : str := rev (lstrip (rev s)).

(** [str.strip()]: whitespace is removed at both ends. *)
Definition strip (s : str) : str := rstrip (lstrip s).

(* ================================================================== *)
(** ** Exceptions, objects and the operating system *)
(* ================================================================== *)

(** The exception classes that the modelled calls can raise.  None of them
    is a subclass of another one that a handler of the source names, so
    [except E] is equality with [E]. *)
Inductive exn :=
| TypeError
| AttributeError
| FileNotFoundError
| NotADirectoryError
| PermissionError
| BrokenPipeError
| ConnectionResetError
| TimeoutError
| ValueError
| UnicodeEncodeError
| UnicodeDecodeError.

Definition exn_eqb (a b : exn) : bool :=
  match a, b with
  | TypeError, TypeError
  | AttributeError, AttributeError
  | FileNotFoundError, FileNotFoundError
  | NotADirectoryError, NotADirectoryError
  | PermissionError, PermissionError
  | BrokenPipeError, BrokenPipeError
  | ConnectionResetError, ConnectionResetError
  | TimeoutError, TimeoutError
  | ValueError, ValueError
  | UnicodeEncodeError, UnicodeEncodeError
  | UnicodeDecodeError, UnicodeDecodeError => true
  | _, _ => false
  end.

Inductive outcome (A : Type) :=
| Return (a : A)
| Raise (e : exn).
Arguments Return {A} a.
Arguments Raise {A} e.

(** [pathlib.Path]: a wrapper around the string it was built from. *)
Inductive Path := PurePath (s : str).

(** [asyncio.StreamWriter] on the child's standard input: the octets
    accepted so far. *)
Record StreamWriter := { sent : bytes }.

(** [asyncio.StreamReader] on the child's merged output: [buffer] is what
    the child writes before it closes its output and that has not been read
    yet; a line whose newline lies beyond [limit] octets is refused. *)
Record StreamReader := { buffer : bytes; limit : N }.

(** [asyncio.subprocess.Process]. *)
Record Process := {
  pid : N;
  returncode : option Z;
  stdin : option StreamWriter;
  stdout : option StreamReader
}.

Record ServerProcess := {
  jar_path : str;
  working_dir : Path;
  min_mem : str;
  max_mem : str;
  process : option Process
}.

Definition set_returncode (rc : option Z) (p : Process) : Process :=
  {| pid := pid p; returncode := rc; stdin := stdin p; stdout := stdout p |}.

Definition set_stdin (w : option StreamWriter) (p : Process) : Process :=
  {| pid := pid p; returncode := returncode p; stdin := w; stdout := stdout p |}.

Definition set_stdout (r : option StreamReader) (p : Process) : Process :=
  {| pid := pid p; returncode := returncode p; stdin := stdin p; stdout := r |}.

Definition with_process (h : option Process) (self : ServerProcess)
  : ServerProcess :=
  {| jar_path := jar_path self; working_dir := working_dir self;
     min_mem := min_mem self; max_mem := max_mem self; process := h |}.

(** [__init__], with its defaults ["2G"] and ["4G"] made explicit by
    [new_default]. *)
Definition new (jar working min max : str) : ServerProcess :=
  {| jar_path := jar; working_dir := PurePath working;
     min_mem := min; max_mem := max; process := None |}.

Definition new_default (jar working : str) : ServerProcess :=
  new jar working (py "2G") (py "4G").

Inductive redirect := PIPE | STDOUT | INHERIT.

(** What the supervisor asks of the operating system and what it hands to
    its consumer, in program order. *)
Inductive event :=
| Exec (argv : list str) (cwd : Path) (fd0 fd1 fd2 : redirect)
| StdinWrite (p : N) (data : bytes)
| StdinDrain (p : N)
| WaitFor (p : N) (timeout : Q)
| Kill (p : N)
| Yield (line : str).

Inductive file_status := Missing | NotExecutable | Executable.

(** The machine at the time of a launch: how a program name resolves,
    which directories and files exist, the child that a successful launch
    creates (its identifier and the complete output it will write), and
    [other_fault]: a failure of the launch that lies with the machine and
    not with what [spawn] looks at itself (no child watcher, no more
    processes or descriptors, a directory that may not be entered, an
    argument list that is too long), by the command and the directory. *)
Record OS := {
  which : str -> file_status;
  dir_exists : Path -> bool;
  file_exists : str -> bool;
  new_pid : N;
  new_output : bytes;
  other_fault : list str -> Path -> option exn
}.

(** The child during one call: how its input pipe answers a write and a
    drain ([None]: the call returns), and when it exits, counted in
    seconds from the start of a wait, with which status ([None]: it does
    not exit by itself). *)
Record Child := {
  on_write : option exn;
  on_drain : option exn;
  exits_after : option (Q * Z)
}.

Definition DEFAULT_LIMIT : N := 65536.

Definition path_str (d : Path) : str := match d with PurePath s => s end.

(** A code point that the file system encoding (UTF-8 with
    [surrogateescape]) can pass to the operating system: every one but the
    surrogates outside U+DC80..U+DCFF. *)
Definition fs_encodable (c : N) : bool :=
  negb (Utf8.is_surrogate c) || ((0xDC80 <=? c) && (c <=? 0xDCFF)).

(** The conversion of one string for the operating system: a string that
    cannot be encoded is a [UnicodeEncodeError], an encoded string with a
    NUL in it a [ValueError]. *)
Definition argument_error (s : str) : option exn :=
  if negb (forallb fs_encodable s) then Some UnicodeEncodeError
  else if existsb (N.eqb 0) s then Some ValueError
  else None.

(** The first string, in order, that cannot be converted. *)
Fixpoint first_error (l : list str) : option exn :=
  match l with
  | [] => None
  | s :: l' =>
      match argument_error s with
      | Some e => Some e
      | None => first_error l'
      end
  end.

(** The launch itself, as [asyncio.create_subprocess_exec] reports it.  A
    fault of the machine comes first.  Then the arguments, in order, and
    after them the working directory are converted for the operating
    system, whether or not the program exists.  Then, in the child, the
    working directory is entered, which fails when nothing is there
    ([FileNotFoundError]) or when what is there is a file
    ([NotADirectoryError]); and then the program is looked up and executed.
    The arguments after the program name are handed to the program and
    looked at by nobody else. *)
Definition spawn (os : OS) (argv : list str) (cwd : Path)
           (fd0 fd1 fd2 : redirect) : outcome Process :=
  match argv with
  | [] => Raise TypeError
  | program :: _ =>
      match other_fault os argv cwd with
      | Some e => Raise e
      | None =>
          match first_error (argv ++ [path_str cwd]) with
          | Some e => Raise e
          | None =>
              if negb (dir_exists os cwd) then
                if file_exists os (path_str cwd) then Raise NotADirectoryError
                else Raise FileNotFoundError
              else
                match which os program with
                | Missing => Raise FileNotFoundError
                | NotExecutable => Raise PermissionError
                | Executable =>
                    Return
                      {| pid := new_pid os;
                         returncode := None;
                         stdin := match fd0 with
                                  | PIPE => Some {| sent := [] |}
                                  | _ => None
                                  end;
                         stdout := match fd1 with
                                   | PIPE =>
                                       Some {| buffer := new_output os;
                                               limit := DEFAULT_LIMIT |}
                                   | _ => None
                                   end |}
                end
          end
      end
  end.

(* ================================================================== *)
(** ** The monad of the methods *)
(* ================================================================== *)

(** A method receives [self], returns or raises, leaves [self] in a new
    state and has made a sequence of calls. *)
Definition M (A : Type) : Type :=
  ServerProcess -> outcome A * ServerProcess * list event.

Definition ret {A} (a : A) : M A := fun self => (Return a, self, []).

Definition raise {A} (e : exn) : M A := fun self => (Raise e, self, []).

Definition bind {A B} (m : M A) (k : A -> M B) : M B :=
  fun self =>
    match m self with
    | (Return a, self1, t1) =>
        match k a self1 with
        | (o, self2, t2) => (o, self2, t1 ++ t2)
        end
    | (Raise e, self1, t1) => (Raise e, self1, t1)
    end.

(** [try: body  except E: handler]. *)
Definition try_except {A} (body : M A) (E : exn) (handler : M A) : M A :=
  fun self =>
    match body self with
    | (Return a, self1, t1) => (Return a, self1, t1)
    | (Raise e, self1, t1) =>
        if exn_eqb e E then
          match handler self1 with
          | (o, self2, t2) => (o, self2, t1 ++ t2)
          end
        else (Raise e, self1, t1)
    end.

Definition get_self : M ServerProcess := fun self => (Return self, self, []).

Definition set_process (h : option Process) : M unit :=
  fun self => (Return tt, with_process h self, []).

Definition emit (e : event) : M unit := fun self => (Return tt, self, [e]).

Definition lift {A} (o : outcome A) : M A := fun self => (o, self, []).

Declare Scope py_scope.
Delimit Scope py_scope with py.
Notation "x <- m ;; k" := (bind m (fun x => k))
  (at level 61, m at next level, right associativity) : py_scope.
Notation "m ;; k" := (bind m (fun _ => k))
  (at level 61, right associativity) : py_scope.
Local Open Scope py_scope.

(** [self.process.<attr>]: an [AttributeError] when [self.process] is
    [None]. *)
Definition the_process : M Process :=
  self <- get_self ;;
  match process self with
  | Some p => ret p
  | None => raise AttributeError
  end.

Definition answer (a : option exn) : M unit :=
  match a with
  | None => ret tt
  | Some e => raise e
  end.

(* ================================================================== *)
(** ** Calls on the child *)
(* ================================================================== *)

Definition newline : N := 10.

(** [asyncio.create_subprocess_exec] on the unpacked [cmd], with [cwd],
    [stdin], [stdout] and [stderr] as keyword arguments. *)
Definition create_subprocess_exec (os : OS) (cmd : list str) (cwd : Path)
           (fd0 fd1 fd2 : redirect) : M Process :=
  emit (Exec cmd cwd fd0 fd1 fd2) ;;
  lift (spawn os cmd cwd fd0 fd1 fd2).

(** [str.encode()]. *)
Definition encode (s : str) : M bytes :=
  match Utf8.encode s with
  | Some b => ret b
  | None => raise UnicodeEncodeError
  end.

(** [self.process.stdin.write(data)]: an accepted write is appended to
    what the pipe carries. *)
Definition stdin_write (ch : Child) (data : bytes) : M unit :=
  p <- the_process ;;
  match stdin p with
  | None => raise AttributeError
  | Some w =>
      emit (StdinWrite (pid p) data) ;;
      answer (on_write ch) ;;
      set_process (Some (set_stdin (Some {| sent := sent w ++ data |}) p))
  end.

(** [await self.process.stdin.drain()]. *)
Definition stdin_drain (ch : Child) : M unit :=
  p <- the_process ;;
  match stdin p with
  | None => raise AttributeError
  | Some _ => emit (StdinDrain (pid p)) ;; answer (on_drain ch)
  end.

Definition exits_within (ch : Child) (timeout : Q) : option Z :=
  match exits_after ch with
  | Some (t, rc) => if Qle_bool t timeout then Some rc else None
  | None => None
  end.

(** [await asyncio.wait_for(self.process.wait(), timeout=t)]: returns when
    the child has exited, its status then recorded in the handle, and raises
    [TimeoutError] when [t] seconds pass first. *)
Definition wait_for_exit (ch : Child) (timeout : Q) : M unit :=
  p <- the_process ;;
  emit (WaitFor (pid p) timeout) ;;
  match exits_within ch timeout with
  | Some rc => set_process (Some (set_returncode (Some rc) p))
  | None => raise TimeoutError
  end.

(** [self.process.kill()]. *)
Definition kill : M unit :=
  p <- the_process ;;
  emit (Kill (pid p)).

(* ================================================================== *)
(** ** The methods of [ServerProcess] *)
(* ================================================================== *)

(** [is_running]: [self.process is not None and
    self.process.returncode is None]. *)
Definition is_running : M bool :=
  self <- get_self ;;
  match process self with
  | None => ret false
  | Some p =>
      match returncode p with
      | None => ret true
      | Some _ => ret false
      end
  end.

Definition start (os : OS) : M bool :=
  running <- is_running ;;
  if (running : bool) then ret false
  else
    self <- get_self ;;
    let cmd := [ py "java";
                 py "-Xms" ++ min_mem self;
                 py "-Xmx" ++ max_mem self;
                 py "-jar"; jar_path self;
                 py "nogui" ] in
    try_except
      (p <- create_subprocess_exec os cmd (working_dir self)
                                   PIPE PIPE STDOUT ;;
       set_process (Some p) ;;
       ret true)
      FileNotFoundError
      (ret false).

Definition write_command (ch : Child) (command : str) : M unit :=
  self <- get_self ;;
  match process self with
  | None => ret tt
  | Some p =>
      match stdin p with
      | None => ret tt
      | Some _ =>
          try_except
            (data <- encode (command ++ [newline]) ;;
             stdin_write ch data ;;
             stdin_drain ch)
            BrokenPipeError
            (ret tt)
      end
  end.

Definition stop (ch : Child) : M unit :=
  self <- get_self ;;
  match process self with
  | None => ret tt
  | Some p =>
      match returncode p with
      | Some _ => set_process None
      | None =>
          write_command ch (py "stop") ;;
          try_except (wait_for_exit ch 30) TimeoutError kill ;;
          set_process None
      end
  end.

(** *** Reading the output line by line *)

Definition is_nl (b : byte) : bool := Byte.eqb b x0a.

(** [StreamReader.readline] on a stream whose end has been reached: the
    line up to and including the first newline, or all that is left; and
    what stays in the buffer. *)
Fixpoint readline (buf : bytes) : bytes * bytes :=
  match buf with
  | [] => ([], [])
  | b :: buf' =>
      if is_nl b then ([b], buf')
      else let (l, rest) := readline buf' in (b :: l, rest)
  end.

(** The lines that [async for line in reader] goes through: [readline]
    again and again until it returns [b''] (see [iter_lines_readline]). *)
Fixpoint iter_lines (buf : bytes) : list bytes :=
  match buf with
  | [] => []
  | b :: buf' =>
      if is_nl b then [b] :: iter_lines buf'
      else match iter_lines buf' with
           | [] => [[b]]
           | l :: ls => (b :: l) :: ls
           end
  end.

Definition ends_with_nl (l : bytes) : bool :=
  match rev l with
  | b :: _ => is_nl b
  | [] => false
  end.

(** Where the separator of a line was found, or the length of an
    unterminated last line: what [readline] compares with the limit. *)
Definition sep_index (l : bytes) : N :=
  N.of_nat (if ends_with_nl l then List.length l - 1 else List.length l).

(** [bytes.decode('utf-8')]. *)
Definition decode (b : bytes) : outcome str :=
  match Utf8.decode b with
  | Some s => Return s
  | None => Raise UnicodeDecodeError
  end.

(** The loop of [stream_logs] over the lines still to come:
    [yield line.decode('utf-8').strip()] for each, until the lines are
    exhausted, the reader refuses a line that is too long ([ValueError],
    the line is dropped, or the whole buffer when the line had no newline)
    or a line does not decode.  The second component is what the reader
    still holds at the end. *)
Fixpoint log_loop (lim : N) (ls : list bytes)
  : outcome unit * bytes * list event :=
  match ls with
  | [] => (Return tt, [], [])
  | l :: ls' =>
      if lim <? sep_index l then
        (Raise ValueError, if ends_with_nl l then List.concat ls' else [], [])
      else
        match decode l with
        | Raise e => (Raise e, List.concat ls', [])
        | Return s =>
            match log_loop lim ls' with
            | (o, rest, t) => (o, rest, Yield (strip s) :: t)
            end
        end
  end.

Definition stream_logs : M unit :=
  self <- get_self ;;
  match process self with
  | None => ret tt
  | Some p =>
      match stdout p with
      | None => ret tt
      | Some r =>
          match log_loop (limit r) (iter_lines (buffer r)) with
          | (o, rest, t) =>
              fun self' =>
                (o,
                 with_process
                   (Some (set_stdout
                            (Some {| buffer := rest; limit := limit r |}) p))
                   self',
                 t)
          end
      end
  end.

(** The three components of a run. *)
Definition result {A} (r : outcome A * ServerProcess * list event) := fst (fst r).
Definition after {A} (r : outcome A * ServerProcess * list event) := snd (fst r).
Definition calls {A} (r : outcome A * ServerProcess * list event) := snd r.

(** The lines handed to the consumer of [stream_logs], in order. *)
Fixpoint yielded (t : list event) : list str :=
  match t with
  | [] => []
  | Yield s :: t' => s :: yielded t'
  | _ :: t' => yielded t'
  end.

(** The octets handed to the input pipe, in order. *)
Fixpoint written (t : list event) : list bytes :=
  match t with
  | [] => []
  | StdinWrite _ d :: t' => d :: written t'
  | _ :: t' => written t'
  end.

(* ================================================================== *)
(** ** Vocabulary of the statements *)
(* ================================================================== *)

(** An answer of the input pipe that [write_command] lets pass: the call
    returns, or it raises [BrokenPipeError]. *)
Definition benign (a : option exn) : bool :=
  match a with
  | None | Some BrokenPipeError => true
  | Some _ => false
  end.

(** The pipe lets a whole command pass: the write, and the drain when the
    write was accepted. *)
Definition pipe_benign (ch : Child) : bool :=
  match on_write ch with
  | None => benign (on_drain ch)
  | Some e => benign (Some e)
  end.

(** The calls that sending [data] makes on the input pipe of process [p]:
    the write, and the drain when the write was accepted. *)
Definition pipe_calls (ch : Child) (p : N) (data : bytes) : list event :=
  StdinWrite p data ::
  match on_write ch with
  | None => [StdinDrain p]
  | Some _ => []
  end.

(** The calls of the bounded wait on process [p]: the wait, and the kill
    when the child has not exited in time. *)
Definition wait_calls (ch : Child) (p : N) : list event :=
  WaitFor p 30 ::
  match exits_within ch 30 with
  | Some _ => []
  | None => [Kill p]
  end.

(** The runnable artifact in the words of the specification: the runtime
    can be located and executed, and the archive at [jar_path] can be
    located. *)
Definition artifact_usable (os : OS) (self : ServerProcess) : bool :=
  match which os (py "java") with
  | Executable => file_exists os (jar_path self)
  | _ => false
  end.

(** The command list of [start], and the launch that [start] makes. *)
Definition command_line (self : ServerProcess) : list str :=
  [ py "java"; py "-Xms" ++ min_mem self; py "-Xmx" ++ max_mem self;
    py "-jar"; jar_path self; py "nogui" ].

Definition launch (os : OS) (self : ServerProcess) : outcome Process :=
  spawn os (command_line self) (working_dir self) PIPE PIPE STDOUT.

(** Nothing stands in the way of the launch but what it is to find: the
    machine has no fault, and the arguments and the working directory can
    be converted. *)
Definition launch_clear (os : OS) (self : ServerProcess) : bool :=
  match other_fault os (command_line self) (working_dir self),
        first_error (command_line self ++ [path_str (working_dir self)]) with
  | None, None => true
  | _, _ => false
  end.

(** The launch is clear and finds nothing at the working directory, or
    finds the working directory and no runtime. *)
Definition launch_not_found (os : OS) (self : ServerProcess) : bool :=
  launch_clear os self
  && (if dir_exists os (working_dir self) then
        match which os (py "java") with
        | Missing => true
        | _ => false
        end
      else negb (file_exists os (path_str (working_dir self)))).

(** The log lines in the words of the specification: each line decoded
    and trimmed of whitespace at its end only. *)
Fixpoint trailing_trimmed (ls : list bytes) : option (list str) :=
  match ls with
  | [] => Some []
  | l :: ls' =>
      match Utf8.decode l, trailing_trimmed ls' with
      | Some s, Some ss => Some (rstrip s :: ss)
      | _, _ => None
      end
  end.

(** [s] is what the loop of [stream_logs] makes of the line [l]: the line
    decoded, then stripped. *)
Definition log_line (l : bytes) (s : str) : Prop :=
  exists t, Utf8.decode l = Some t /\ s = strip t.

(** No line is refused by a reader with limit [lim]. *)
Definition within_limit (lim : N) (ls : list bytes) : bool :=
  forallb (fun l => sep_index l <=? lim) ls.

(** Newline characters in a text, newline octets in a byte sequence. *)
Definition newlines (s : str) : nat :=
  List.length (filter (N.eqb newline) s).

Definition newline_octets (b : bytes) : nat :=
  List.length (filter is_nl b).

(* ================================================================== *)
(** ** Sample objects *)
(* ================================================================== *)

Module Sample.

Definition server : ServerProcess :=
  new_default (py "server.jar") (py "/srv/mc").

(** A handle as [start] builds it: both pipes present. *)
Definition child (out : bytes) (rc : option Z) : Process :=
  {| pid := 4242; returncode := rc;
     stdin := Some {| sent := [] |};
     stdout := Some {| buffer := out; limit := DEFAULT_LIMIT |} |}.

Definition running (out : bytes) : ServerProcess :=
  with_process (Some (child out None)) server.

Definition exited (rc : Z) : ServerProcess :=
  with_process (Some (child [] (Some rc))) server.

(** A machine with a runtime, the working directory and the archive. *)
Definition os : OS :=
  {| which := fun _ => Executable;
     dir_exists := fun _ => true;
     file_exists := fun _ => true;
     new_pid := 4242;
     new_output := [];
     other_fault := fun _ _ => None |}.

(** A child that takes its input and exits one second into a wait. *)
Definition obedient : Child :=
  {| on_write := None; on_drain := None; exits_after := Some (1%Q, 0%Z) |}.

(** A child that takes its input and never exits by itself. *)
Definition stubborn : Child :=
  {| on_write := None; on_drain := None; exits_after := None |}.

(** A child that has closed its input: the drain reports the lost
    connection. *)
Definition hung_up : Child :=
  {| on_write := None; on_drain := Some ConnectionResetError;
     exits_after := Some (1%Q, 0%Z) |}.

(** A child whose input pipe breaks under the write. *)
Definition broken : Child :=
  {| on_write := Some BrokenPipeError; on_drain := None;
     exits_after := Some (1%Q, 0%Z) |}.

(** A live handle that has no input pipe. *)
Definition pipeless_child : Process :=
  {| pid := 4242; returncode := None; stdin := None; stdout := None |}.

Definition pipeless : ServerProcess :=
  with_process (Some pipeless_child) server.

(** A machine with the runtime and the working directory, where no file
    is found at the archive path. *)
Definition no_archive : OS :=
  {| which := fun _ => Executable;
     dir_exists := fun _ => true;
     file_exists := fun _ => false;
     new_pid := 4242;
     new_output := [];
     other_fault := fun _ _ => None |}.

(** A machine without the runtime. *)
Definition no_runtime : OS :=
  {| which := fun _ => Missing;
     dir_exists := fun _ => true;
     file_exists := fun _ => true;
     new_pid := 4242;
     new_output := [];
     other_fault := fun _ _ => None |}.

End Sample.

(* ================================================================== *)
(** ** Life of a supervisor *)
(* ================================================================== *)

(** The configuration given to [__init__] is what [after] still holds. *)
Definition same_config (a b : ServerProcess) : Prop :=
  jar_path a = jar_path b /\ working_dir a = working_dir b /\
  min_mem a = min_mem b /\ max_mem a = max_mem b.

(** A handle has both of its pipes. *)
Definition piped (p : Process) : Prop :=
  stdin p <> None /\ stdout p <> None.

(** Whatever handle the object holds has both pipes. *)
Definition handle_piped (self : ServerProcess) : Prop :=
  forall p, process self = Some p -> piped p.

(** What the event loop does to the handle between two calls: it records
    the exit status of a child that has exited, and it takes in what the
    child has written since. *)
Definition child_exits (rc : Z) (self : ServerProcess) : ServerProcess :=
  match process self with
  | Some p =>
      match returncode p with
      | None => with_process (Some (set_returncode (Some rc) p)) self
      | Some _ => self
      end
  | None => self
  end.

Definition child_prints (out : bytes) (self : ServerProcess) : ServerProcess :=
  match process self with
  | Some p =>
      match stdout p with
      | Some r =>
          with_process
            (Some (set_stdout
                     (Some {| buffer := buffer r ++ out; limit := limit r |})
                     p)) self
      | None => self
      end
  | None => self
  end.

(** One move in the life of a supervisor: a call of one of its methods,
    whatever the machine and the child answer and however the call ends, or
    a move of the child. *)
Inductive step : ServerProcess -> ServerProcess -> Prop :=
| step_start (os : OS) (s : ServerProcess) :
    step s (after (start os s))
| step_stop (ch : Child) (s : ServerProcess) :
    step s (after (stop ch s))
| step_write_command (ch : Child) (text : str) (s : ServerProcess) :
    step s (after (write_command ch text s))
| step_stream_logs (s : ServerProcess) :
    step s (after (stream_logs s))
| step_child_exits (rc : Z) (s : ServerProcess) :
    step s (child_exits rc s)
| step_child_prints (out : bytes) (s : ServerProcess) :
    step s (child_prints out s).

(** The states a supervisor built by [__init__] can come to. *)
Inductive reachable (s0 : ServerProcess) : ServerProcess -> Prop :=
| reach_init : reachable s0 s0
| reach_step (s s' : ServerProcess) :
    reachable s0 s -> step s s' -> reachable s0 s'.

(** What [except BrokenPipeError: pass] makes of the answers of the pipe
    to one command. *)
Definition command_outcome (ch : Child) : outcome unit :=
  match on_write ch with
  | Some e => if exn_eqb e BrokenPipeError then Return tt else Raise e
  | None =>
      match on_drain ch with
      | Some e => if exn_eqb e BrokenPipeError then Return tt else Raise e
      | None => Return tt
      end
  end.

(** The pipe answers one command with the error [e], which the handler of
    [write_command] does not name: the write raises it, or the write is
    accepted and the drain raises it. *)
Definition pipe_raises (ch : Child) (e : exn) : Prop :=
  e <> BrokenPipeError /\
  (on_write ch = Some e \/ (on_write ch = None /\ on_drain ch = Some e)).

(** The machine can launch the runtime for this supervisor: the launch is
    clear, the working directory is there and [java] is found and
    executable. *)
Definition launchable (os : OS) (self : ServerProcess) : bool :=
  launch_clear os self
  && dir_exists os (working_dir self)
  && match which os (py "java") with
     | Executable => true
     | _ => false
     end.

(** The handle that a launch on machine [os] creates. *)
Definition fresh_handle (os : OS) : Process :=
  {| pid := new_pid os; returncode := None;
     stdin := Some {| sent := [] |};
     stdout := Some {| buffer := new_output os; limit := DEFAULT_LIMIT |} |}.

(** A lone surrogate: a code point that [str] can hold and UTF-8 cannot. *)
Definition has_surrogate (s : str) : bool := existsb Utf8.is_surrogate s.

(** Every event of a trace is a call on the input pipe of process [p]. *)
Definition pipe_only (p : N) (t : list event) : Prop :=
  Forall (fun e => e = StdinDrain p \/ exists d, e = StdinWrite p d) t.

(** Every event of a trace is a line handed to the consumer. *)
Definition yield_only (t : list event) : Prop :=
  Forall (fun e => exists s, e = Yield s) t.

Module Scene.

(** A machine where the runtime is found and may not be executed. *)
Definition locked_runtime : OS :=
  {| which := fun _ => NotExecutable;
     dir_exists := fun _ => true;
     file_exists := fun _ => true;
     new_pid := 4243;
     new_output := [];
     other_fault := fun _ _ => None |}.

(** A machine whose next child is process 4243. *)
Definition second_launch : OS :=
  {| which := fun _ => Executable;
     dir_exists := fun _ => true;
     file_exists := fun _ => true;
     new_pid := 4243;
     new_output := [];
     other_fault := fun _ _ => None |}.

(** A child whose pipe refuses the write with an error that is no
    [BrokenPipeError]. *)
Definition refusing : Child :=
  {| on_write := Some PermissionError; on_drain := None;
     exits_after := None |}.

End Scene.

(* ================================================================== *)
(** ** Text: sample evaluations *)
(* ================================================================== *)

Example encode_say_hello :
  Utf8.encode (py "say hello") = Some (pyb "say hello").
Proof. reflexivity. Qed.

Example decode_two_octets :
  Utf8.decode [xc3; xa9] = Some [0xE9].
Proof. reflexivity. Qed.

Example encode_euro : Utf8.encode [0x20AC] = Some [xe2; x82; xac].
Proof. reflexivity. Qed.

Example decode_euro : Utf8.decode [xe2; x82; xac] = Some [0x20AC].
Proof. reflexivity. Qed.

Example encode_decode_astral :
  Utf8.encode [0x1F600] = Some [xf0; x9f; x98; x80] /\
  Utf8.decode [xf0; x9f; x98; x80] = Some [0x1F600].
Proof. split; reflexivity. Qed.

Example decode_surrogate : Utf8.decode [xed; xa0; x80] = None.
Proof. reflexivity. Qed.

Example decode_truncated : Utf8.decode [xe2; x82] = None.
Proof. reflexivity. Qed.

Example decode_overlong : Utf8.decode [xc0; x80] = None.
Proof. reflexivity. Qed.

Example encode_surrogate : Utf8.encode [0xD800] = None.
Proof. reflexivity. Qed.

Example strip_both_ends : strip (py "  A b ") = py "A b".
Proof. reflexivity. Qed.

(* ================================================================== *)
(** ** The codec: decoding undoes encoding *)
(* ================================================================== *)

#[local] Ltac Zify.zify_post_hook ::= Z.to_euclidean_division_equations.

Lemma to_N_octet (v : N) : v < 256 -> Byte.to_N (octet v) = v.
Proof.
  intros H. unfold octet. destruct (Byte.of_N v) as [b|] eqn:Hb.
  - now apply Byte.to_of_N.
  - apply Byte.of_N_None_iff in Hb. lia.
Qed.

(** Disjoint bits: the bitwise or is the sum. *)
Lemma lor_add (a n y : N) : y < 2 ^ n -> N.lor (a * 2 ^ n) y = a * 2 ^ n + y.
Proof.
  intros H.
  assert (Hl : N.land (a * 2 ^ n) y = 0).
  { apply N.bits_inj. intros m. rewrite N.land_spec, N.bits_0.
    destruct (N.lt_ge_cases m n) as [Hm|Hm].
    - now rewrite N.mul_pow2_bits_low.
    - rewrite <- (N.mod_small y (2 ^ n)) by assumption.
      rewrite N.mod_pow2_bits_high by assumption. apply andb_false_r. }
  rewrite N.add_nocarry_lxor by assumption. symmetry. now apply N.lxor_lor.
Qed.

Lemma land_low (x : N) :
  N.land x 0x3F = x mod 64 /\ N.land x 0x1F = x mod 32 /\
  N.land x 0x0F = x mod 16 /\ N.land x 0x07 = x mod 8.
Proof.
  repeat split;
    [exact (N.land_ones x 6) | exact (N.land_ones x 5)
     | exact (N.land_ones x 4) | exact (N.land_ones x 3)].
Qed.

Lemma cont_value (c s : N) :
  Byte.to_N (Utf8.cont c s) = 0x80 + (c / 2 ^ s) mod 64.
Proof.
  unfold Utf8.cont. rewrite N.shiftr_div_pow2, (proj1 (land_low _)).
  change 0x80 with (2 * 2 ^ 6). rewrite lor_add by (change (2 ^ 6) with 64; lia).
  apply to_N_octet. change (2 ^ 6) with 64. lia.
Qed.

Lemma lead_value (k a c s : N) :
  c / 2 ^ s < 2 ^ a -> k * 2 ^ a + 2 ^ a <= 256 ->
  Byte.to_N (octet (N.lor (k * 2 ^ a) (N.shiftr c s))) = k * 2 ^ a + c / 2 ^ s.
Proof.
  intros H1 H2. rewrite N.shiftr_div_pow2, lor_add by assumption.
  apply to_N_octet. lia.
Qed.

Lemma acc_value (acc n : N) :
  N.lor (N.shiftl acc 6) (N.land n 0x3F) = acc * 64 + n mod 64.
Proof.
  rewrite N.shiftl_mul_pow2, (proj1 (land_low _)).
  rewrite lor_add by (change (2 ^ 6) with 64; lia). reflexivity.
Qed.

(** Decides the range tests of the decoder by arithmetic. *)
Ltac tests :=
  repeat (cbn [andb];
          match goal with
          | |- context [if (?a <? ?b) then _ else _] =>
              destruct (N.ltb_spec a b); try lia
          | |- context [if (?a =? ?b) then _ else _] =>
              destruct (N.eqb_spec a b); try lia
          | |- context [(?a <=? ?b) && _] =>
              destruct (N.leb_spec a b); try lia
          | |- context [if (?a <=? ?b) then _ else _] =>
              destruct (N.leb_spec a b); try lia
          end).

Ltac pow := change (2 ^ 3) with 8 in *; change (2 ^ 4) with 16 in *;
            change (2 ^ 5) with 32 in *; change (2 ^ 6) with 64 in *;
            change (2 ^ 12) with 4096 in *; change (2 ^ 18) with 262144 in *;
            change (2 ^ 0) with 1 in *.

Lemma decode_encode_cp (c : N) (bs rest : bytes) :
  Utf8.encode_cp c = Some bs ->
  Utf8.decode_from Utf8.Start (bs ++ rest) =
  option_map (cons c) (Utf8.decode_from Utf8.Start rest).
Proof.
  unfold Utf8.encode_cp, Utf8.is_surrogate.
  destruct (N.ltb_spec c 0x80) as [H1|H1];
    [|destruct (N.ltb_spec c 0x800) as [H2|H2];
      [|destruct (N.ltb_spec c 0x10000) as [H3|H3];
        [destruct ((0xD800 <=? c) && (c <=? 0xDFFF)) eqn:Hs
        |destruct (N.ltb_spec c 0x110000) as [H4|H4]]]];
    intros H; try discriminate H;
    apply (f_equal (fun o => match o with Some l => l | None => [] end)) in H;
    rewrite <- H; clear H bs; cbn [app Utf8.decode_from].
  - rewrite to_N_octet by lia. unfold Utf8.lead. tests. reflexivity.
  - change 0xC0 with (6 * 2 ^ 5).
    rewrite (lead_value 6 5 c 6) by (pow; lia).
    rewrite !cont_value.
    unfold Utf8.lead. pow. tests.
    rewrite !acc_value, !(proj1 (proj2 (land_low _))).
    f_equal. f_equal. lia.
  - change 0xE0 with (14 * 2 ^ 4).
    rewrite (lead_value 14 4 c 12) by (pow; lia).
    rewrite !cont_value.
    apply andb_false_iff in Hs. rewrite !N.leb_gt in Hs.
    unfold Utf8.lead. pow. tests.
    all: rewrite !acc_value, ?(proj1 (proj2 (proj2 (land_low _))));
      f_equal; f_equal; lia.
  - change 0xF0 with (30 * 2 ^ 3).
    rewrite (lead_value 30 3 c 18) by (pow; lia).
    rewrite !cont_value.
    unfold Utf8.lead. pow. tests.
    all: rewrite !acc_value, ?(proj2 (proj2 (proj2 (land_low _))));
      f_equal; f_equal; lia.
Qed.

(** Decoding undoes encoding: the two halves of the codec agree on every
    text that has an encoding. *)
Theorem decode_encode (s : str) (bs : bytes) :
  Utf8.encode s = Some bs -> Utf8.decode bs = Some s.
Proof.
  unfold Utf8.decode. revert bs.
  induction s as [|c s IH]; intros bs H; cbn in H.
  - now injection H as <-.
  - destruct (Utf8.encode_cp c) as [x|] eqn:Hc; [|discriminate].
    destruct (Utf8.encode s) as [y|]; [|discriminate].
    injection H as <-. rewrite (decode_encode_cp c x y Hc), (IH y eq_refl).
    reflexivity.
Qed.

(* ================================================================== *)
(** ** Running the methods *)
(* ================================================================== *)

(** Unfolds a method down to its case analysis on the handle and on the
    answers of the child. *)
Ltac run_py :=
  unfold stop, write_command, start, is_running, stream_logs,
         create_subprocess_exec, wait_for_exit, kill, stdin_write,
         stdin_drain, encode, the_process, answer, lift, emit, set_process,
         get_self, try_except, bind, raise, ret, result, after, calls;
  cbn.

Lemma with_process_same (self : ServerProcess) :
  with_process (process self) self = self.
Proof. destruct self; reflexivity. Qed.

Lemma process_with_process (h : option Process) (self : ServerProcess) :
  process (with_process h self) = h.
Proof. reflexivity. Qed.

(** The handle decides [is_running], and nothing else happens. *)
Lemma is_running_run (self : ServerProcess) :
  is_running self =
  (Return match process self with
          | Some p => match returncode p with None => true | Some _ => false end
          | None => false
          end, self, []).
Proof.
  run_py. destruct (process self) as [p|]; [destruct (returncode p)|];
    reflexivity.
Qed.

(** C2. [is_running] is true exactly when a handle is present and no exit
    status is recorded in it; evaluating it returns normally, leaves the
    object as it was and calls nothing; on a freshly constructed object,
    before any [start], it is false. *)
Theorem is_running_iff_handle_alive :
  (forall self : ServerProcess,
      exists b : bool,
        is_running self = (Return b, self, []) /\
        (b = true <->
         exists p, process self = Some p /\ returncode p = None)) /\
  (forall jar wd mn mx : str,
      is_running (new jar wd mn mx) = (Return false, new jar wd mn mx, [])).
Proof.
  split.
  - intros self. rewrite is_running_run.
    destruct (process self) as [p|] eqn:Hp.
    + destruct (returncode p) as [rc|] eqn:Hrc.
      * exists false. split; [reflexivity|]. split; [discriminate|].
        intros (q & Hq & Hn). inversion Hq; subst. congruence.
      * exists true. split; [reflexivity|]. split; [|reflexivity].
        intros _. exists p. split; [reflexivity | assumption].
    + exists false. split; [reflexivity|]. split; [discriminate|].
      intros (q & Hq & _). discriminate.
  - intros. reflexivity.
Qed.

Lemma start_refuses_when_running_aux (os : OS) (self : ServerProcess) :
  result (is_running self) = Return true ->
  start os self = (Return false, self, []).
Proof.
  intros H. rewrite is_running_run in H. unfold result in H.
  cbn in H. unfold start, bind. rewrite is_running_run.
  injection H as H. rewrite H. reflexivity.
Qed.

(** C4. While [is_running] is true, [start] returns [False]: the object,
    and with it the handle, is left as it was and nothing is launched. *)
Theorem start_refuses_when_running :
  forall (os : OS) (self : ServerProcess),
    result (is_running self) = Return true ->
    start os self = (Return false, self, []).
Proof. exact start_refuses_when_running_aux. Qed.

Lemma start_refuses_when_running_witness :
  result (is_running (Sample.running [])) = Return true /\
  start Sample.os (Sample.running []) = (Return false, Sample.running [], []).
Proof.
  split; [reflexivity|].
  apply (start_refuses_when_running Sample.os (Sample.running [])).
  reflexivity.
Defined.

(** C7. On a handle whose child has already exited, [stop] clears the
    handle and returns without any call on the input pipe (or any other
    call); with no handle it returns and changes nothing. *)
Theorem stop_on_exited_or_absent :
  forall (ch : Child) (self : ServerProcess),
    (forall p rc, process self = Some p -> returncode p = Some rc ->
        stop ch self = (Return tt, with_process None self, [])) /\
    (process self = None -> stop ch self = (Return tt, self, [])).
Proof.
  intros ch self. split.
  - intros p rc Hp Hrc. run_py. rewrite Hp, Hrc. reflexivity.
  - intros Hp. run_py. rewrite Hp. reflexivity.
Qed.

Lemma stop_on_exited_or_absent_witness :
  stop Sample.stubborn (Sample.exited 1) =
    (Return tt, Sample.server, []) /\
  stop Sample.stubborn Sample.server = (Return tt, Sample.server, []).
Proof.
  split.
  - apply (proj1 (stop_on_exited_or_absent Sample.stubborn (Sample.exited 1))
             (Sample.child [] (Some 1%Z)) 1%Z); reflexivity.
  - apply (proj2 (stop_on_exited_or_absent Sample.stubborn Sample.server)).
    reflexivity.
Defined.

(** *** [write_command] and [stop] on a live handle *)

Lemma encode_app (s t : str) (a b : bytes) :
  Utf8.encode s = Some a -> Utf8.encode t = Some b ->
  Utf8.encode (s ++ t) = Some (a ++ b).
Proof.
  revert a. induction s as [|c s IH]; intros a Hs Ht; cbn in *.
  - injection Hs as <-. assumption.
  - destruct (Utf8.encode_cp c) as [x|]; [|discriminate].
    destruct (Utf8.encode s) as [y|]; [|discriminate].
    injection Hs as <-. rewrite (IH y eq_refl Ht).
    now rewrite <- app_assoc.
Qed.

Lemma encode_line (text : str) (data : bytes) :
  Utf8.encode text = Some data ->
  Utf8.encode (text ++ [newline]) = Some (data ++ [x0a]).
Proof. intros H. apply encode_app; [assumption | reflexivity]. Qed.

(** What [write_command] does on a handle with an input pipe, for a text
    that has an encoding. *)
Lemma write_command_run (ch : Child) (self : ServerProcess) (p : Process)
      (w : StreamWriter) (text : str) (data : bytes) :
  process self = Some p -> stdin p = Some w ->
  Utf8.encode text = Some data ->
  write_command ch text self =
  (match on_write ch with
   | Some e => if exn_eqb e BrokenPipeError then Return tt else Raise e
   | None =>
       match on_drain ch with
       | Some e => if exn_eqb e BrokenPipeError then Return tt else Raise e
       | None => Return tt
       end
   end,
   match on_write ch with
   | Some _ => self
   | None =>
       with_process
         (Some (set_stdin (Some {| sent := sent w ++ data ++ [x0a] |}) p))
         self
   end,
   pipe_calls ch (pid p) (data ++ [x0a])).
Proof.
  intros Hp Hw He. unfold pipe_calls. run_py. rewrite Hp, Hw.
  rewrite (encode_line _ _ He). cbn. rewrite Hp. cbn. rewrite Hw. cbn.
  destruct (on_write ch) as [e|]; cbn.
  - destruct (exn_eqb e BrokenPipeError); reflexivity.
  - destruct (on_drain ch) as [e|]; cbn;
      [destruct (exn_eqb e BrokenPipeError)|]; reflexivity.
Qed.

(** A text without encoding (a lone surrogate): [encode] raises inside the
    [try], the handler does not name the error, nothing reaches the pipe. *)
Lemma write_command_unencodable (ch : Child) (self : ServerProcess)
      (p : Process) (w : StreamWriter) (text : str) :
  process self = Some p -> stdin p = Some w ->
  Utf8.encode (text ++ [newline]) = None ->
  write_command ch text self = (Raise UnicodeEncodeError, self, []).
Proof. intros Hp Hw He. run_py. rewrite Hp, Hw, He. reflexivity. Qed.

(** The bounded wait of [stop] and what follows it, on a live handle. *)
Lemma stop_tail_run (ch : Child) (self : ServerProcess) (p : Process) :
  process self = Some p ->
  bind (try_except (wait_for_exit ch 30) TimeoutError kill)
       (fun _ => set_process None) self =
  (Return tt, with_process None self, wait_calls ch (pid p)).
Proof.
  intros Hp. unfold wait_calls. run_py. rewrite Hp. cbn.
  destruct (exits_within ch 30) as [rc|]; cbn.
  - reflexivity.
  - rewrite Hp. reflexivity.
Qed.

Lemma stop_run_piped (ch : Child) (self : ServerProcess) (p : Process)
      (w : StreamWriter) :
  process self = Some p -> returncode p = None -> stdin p = Some w ->
  pipe_benign ch = true ->
  stop ch self =
  (Return tt, with_process None self,
   pipe_calls ch (pid p) (pyb "stop" ++ [x0a]) ++ wait_calls ch (pid p)).
Proof.
  intros Hp Hrc Hw Hb.
  unfold stop. unfold bind at 1. unfold get_self at 1. rewrite Hp, Hrc.
  unfold bind at 1.
  rewrite (write_command_run ch self p w (py "stop") (pyb "stop") Hp Hw eq_refl).
  unfold pipe_benign in Hb.
  destruct (on_write ch) as [e|] eqn:Hwr.
  - destruct e; try discriminate Hb. cbn [exn_eqb].
    rewrite (stop_tail_run ch self p Hp). reflexivity.
  - assert (Hres :
      match on_drain ch with
      | Some e => if exn_eqb e BrokenPipeError then Return tt else Raise e
      | None => Return tt
      end = Return tt).
    { destruct (on_drain ch) as [e|]; [destruct e; try discriminate Hb|];
        reflexivity. }
    rewrite Hres.
    set (self1 := with_process _ self).
    rewrite (stop_tail_run ch self1 _ eq_refl). reflexivity.
Qed.

Lemma stop_run_pipeless (ch : Child) (self : ServerProcess) (p : Process) :
  process self = Some p -> returncode p = None -> stdin p = None ->
  stop ch self = (Return tt, with_process None self, wait_calls ch (pid p)).
Proof.
  intros Hp Hrc Hw.
  unfold stop. unfold bind at 1. unfold get_self at 1. rewrite Hp, Hrc.
  unfold bind at 1. unfold write_command. unfold bind at 1.
  unfold get_self at 1. rewrite Hp, Hw. unfold ret at 1.
  rewrite (stop_tail_run ch self p Hp). reflexivity.
Qed.

(** [stop] on a live handle when the pipe lets the command pass.  With an
    input pipe, [stop] hands [stop] and a newline to it (and drains it when
    the write was accepted), then waits for the exit with a timeout of 30
    seconds, calls [kill] exactly when the child has not exited in time,
    writes nothing more, returns, and leaves the handle cleared.  Without
    input pipe nothing is written and the same bounded wait follows. *)
Theorem stop_live_handle_protocol :
  forall (ch : Child) (self : ServerProcess) (p : Process),
    process self = Some p -> returncode p = None ->
    (forall w, stdin p = Some w -> pipe_benign ch = true ->
       stop ch self =
       (Return tt, with_process None self,
        pipe_calls ch (pid p) (pyb "stop" ++ [x0a]) ++
        WaitFor (pid p) 30 ::
        match exits_within ch 30 with
        | Some _ => []
        | None => [Kill (pid p)]
        end)) /\
    (stdin p = None ->
       stop ch self =
       (Return tt, with_process None self,
        WaitFor (pid p) 30 ::
        match exits_within ch 30 with
        | Some _ => []
        | None => [Kill (pid p)]
        end)).
Proof.
  intros ch self p Hp Hrc. split.
  - intros w Hw Hb. apply (stop_run_piped ch self p w Hp Hrc Hw Hb).
  - intros Hw. apply (stop_run_pipeless ch self p Hp Hrc Hw).
Qed.

Lemma stop_live_handle_protocol_witness :
  stop Sample.obedient (Sample.running []) =
    (Return tt, Sample.server,
     [StdinWrite 4242 (pyb "stop" ++ [x0a]); StdinDrain 4242;
      WaitFor 4242 30]) /\
  stop Sample.stubborn (Sample.running []) =
    (Return tt, Sample.server,
     [StdinWrite 4242 (pyb "stop" ++ [x0a]); StdinDrain 4242;
      WaitFor 4242 30; Kill 4242]) /\
  stop Sample.stubborn Sample.pipeless =
    (Return tt, Sample.server, [WaitFor 4242 30; Kill 4242]).
Proof.
  split; [|split].
  - apply (proj1 (stop_live_handle_protocol Sample.obedient (Sample.running [])
                    (Sample.child [] None) eq_refl eq_refl)
             {| sent := [] |}); reflexivity.
  - apply (proj1 (stop_live_handle_protocol Sample.stubborn (Sample.running [])
                    (Sample.child [] None) eq_refl eq_refl)
             {| sent := [] |}); reflexivity.
  - apply (proj2 (stop_live_handle_protocol Sample.stubborn Sample.pipeless
                    Sample.pipeless_child eq_refl eq_refl)); reflexivity.
Defined.

(** C1 (the code at the failing input). The handle is the one [start] has
    stored, the child has not exited and has closed its input.  [stop] hands
    [stop] and a newline to the pipe; the drain raises
    [ConnectionResetError], which leaves [write_command] and [stop]: there
    is no wait for the exit, no kill after 30 seconds, and [stop] does not
    return with the handle cleared. *)
Theorem stop_abandons_wait_on_lost_connection :
  let s := after (start Sample.os Sample.server) in
  let r := stop Sample.hung_up s in
  (exists p, process s = Some p /\ returncode p = None) /\
  calls r = [StdinWrite 4242 (pyb "stop" ++ [x0a]); StdinDrain 4242] /\
  (forall t, ~ In (WaitFor 4242 t) (calls r)) /\
  ~ In (Kill 4242) (calls r) /\
  result r = Raise ConnectionResetError /\
  process (after r) <> None.
Proof.
  cbv zeta. split; [eexists; split; reflexivity|].
  split; [reflexivity|]. split; [|split; [|split; [reflexivity|discriminate]]].
  - intros t [H|[H|[]]]; discriminate H.
  - intros [H|[H|[]]]; discriminate H.
Qed.

(** C8 (the code at the failing input). The child has closed its input, so
    the drain of the shutdown command raises [ConnectionResetError]; the
    handler of [write_command] names [BrokenPipeError] only, so the error
    leaves [write_command] and then [stop]: no wait, no kill, and the handle
    is still there, with [is_running] still true. *)
Theorem stop_raises_on_lost_connection :
  let r := stop Sample.hung_up (Sample.running []) in
  result r = Raise ConnectionResetError /\
  calls r = [StdinWrite 4242 (pyb "stop" ++ [x0a]); StdinDrain 4242] /\
  process (after r) <> None /\
  result (is_running (after r)) = Return true.
Proof.
  cbv zeta. repeat split. discriminate.
Qed.

(** A pipe that breaks with [BrokenPipeError] does not stop [stop]. *)
Lemma stop_survives_broken_pipe :
  stop Sample.broken (Sample.running []) =
  (Return tt, Sample.server,
   [StdinWrite 4242 (pyb "stop" ++ [x0a]); WaitFor 4242 30]).
Proof. reflexivity. Qed.

(** *** Newlines survive the encoding *)

Lemma octet_is_nl (v : N) : is_nl (octet v) = true -> v = 10.
Proof.
  unfold octet, is_nl. destruct (Byte.of_N v) as [b|] eqn:Hv.
  - intros H. apply Byte.byte_dec_bl in H. subst b.
    apply Byte.to_of_N in Hv. now rewrite <- Hv.
  - discriminate.
Qed.

Lemma high_bit_not_nl (k y : N) :
  N.testbit k 7 = true -> is_nl (octet (N.lor k y)) = false.
Proof.
  intros Hk. destruct (is_nl (octet (N.lor k y))) eqn:H; [|reflexivity].
  apply octet_is_nl in H.
  assert (Hb : N.testbit (N.lor k y) 7 = true)
    by (rewrite N.lor_spec, Hk; reflexivity).
  rewrite H in Hb. discriminate Hb.
Qed.

Lemma ascii_is_nl (c : N) : c < 0x80 -> is_nl (octet c) = (newline =? c).
Proof.
  intros Hc. destruct (N.eqb_spec newline c) as [<-|Hne].
  - reflexivity.
  - destruct (is_nl (octet c)) eqn:H; [|reflexivity].
    apply octet_is_nl in H. unfold newline in Hne. congruence.
Qed.

Lemma encode_cp_newlines (c : N) (b : bytes) :
  Utf8.encode_cp c = Some b ->
  newline_octets b = newlines [c].
Proof.
  unfold Utf8.encode_cp, newline_octets, newlines, Utf8.cont.
  destruct (N.ltb_spec c 0x80) as [H1|H1].
  - intros [= <-]. cbn [filter]. rewrite (ascii_is_nl c H1).
    destruct (newline =? c); reflexivity.
  - assert (Hne : (newline =? c) = false)
      by (apply N.eqb_neq; unfold newline; lia).
    cbn [filter]. rewrite Hne.
    destruct (c <? 0x800); [|destruct (c <? 0x10000);
      [destruct (Utf8.is_surrogate c)|destruct (c <? 0x110000)]];
      intros H; try discriminate H;
      apply (f_equal (fun o => match o with Some l => l | None => [] end)) in H;
      rewrite <- H; cbn [filter];
      rewrite ?high_bit_not_nl by reflexivity; reflexivity.
Qed.

Lemma newline_octets_app (a b : bytes) :
  newline_octets (a ++ b) = (newline_octets a + newline_octets b)%nat.
Proof. unfold newline_octets. now rewrite filter_app, length_app. Qed.

Lemma encode_newlines (text : str) (data : bytes) :
  Utf8.encode text = Some data ->
  newline_octets data = newlines text.
Proof.
  revert data. induction text as [|c text IH]; intros data H; cbn in H.
  - injection H as <-. reflexivity.
  - destruct (Utf8.encode_cp c) as [x|] eqn:Hc; [|discriminate].
    destruct (Utf8.encode text) as [y|]; [|discriminate].
    injection H as <-. rewrite newline_octets_app, (IH y eq_refl).
    rewrite (encode_cp_newlines c x Hc). unfold newlines. cbn [filter].
    destruct (newline =? c); reflexivity.
Qed.

(** A buffer that ends in a newline holds as many lines as newlines. *)
Lemma iter_lines_terminated (b : bytes) :
  List.length (iter_lines (b ++ [x0a])) = S (newline_octets b).
Proof.
  induction b as [|c b IH]; [reflexivity|].
  cbn [app iter_lines]. unfold newline_octets in *. cbn [filter].
  destruct (is_nl c); cbn [List.length].
  - now rewrite IH.
  - destruct (iter_lines (b ++ [x0a])); [discriminate IH | exact IH].
Qed.

(** C6 (the code at the failing input). The child has closed its input:
    the write of [say hello] and a newline is accepted, the drain raises
    [ConnectionResetError], and the handler, which names [BrokenPipeError]
    only, lets it go: the failed console write is raised to the caller of
    [write_command]. *)
Theorem write_command_raises_on_lost_connection :
  let s := after (start Sample.os Sample.server) in
  let r := write_command Sample.hung_up (py "say hello") s in
  (exists p w, process s = Some p /\ stdin p = Some w) /\
  calls r = [StdinWrite 4242 (pyb "say hello" ++ [x0a]); StdinDrain 4242] /\
  result r = Raise ConnectionResetError.
Proof.
  cbv zeta. split; [eexists _, _; split; reflexivity|].
  split; reflexivity.
Qed.

(** What [write_command] does by design.  It returns at once, with the
    object as it was and no call made, when there is no handle or the handle
    has no input pipe.  Otherwise, for a text with UTF-8 encoding [data], it
    hands exactly [data] followed by a newline to the input pipe and, the
    write accepted, drains the pipe; it returns when both calls return, and
    a [BrokenPipeError] from either call is swallowed.  Sending [say hello]
    hands the octets of [say hello] and a newline to the pipe. *)
Theorem write_command_contract :
  (forall (ch : Child) (self : ServerProcess) (text : str),
      (process self = None ->
       write_command ch text self = (Return tt, self, [])) /\
      (forall p, process self = Some p -> stdin p = None ->
       write_command ch text self = (Return tt, self, [])) /\
      (forall p w data,
          process self = Some p -> stdin p = Some w ->
          Utf8.encode text = Some data ->
          let r := write_command ch text self in
          calls r =
            StdinWrite (pid p) (data ++ [x0a]) ::
            match on_write ch with
            | None => [StdinDrain (pid p)]
            | Some _ => []
            end /\
          (on_write ch = None ->
           process (after r) =
           Some (set_stdin (Some {| sent := sent w ++ data ++ [x0a] |}) p)) /\
          (on_write ch = None -> on_drain ch = None -> result r = Return tt) /\
          (on_write ch = Some BrokenPipeError -> result r = Return tt) /\
          (on_write ch = None -> on_drain ch = Some BrokenPipeError ->
           result r = Return tt))) /\
  calls (write_command Sample.obedient (py "say hello") (Sample.running []))
  = [StdinWrite 4242 (pyb "say hello" ++ [x0a]); StdinDrain 4242].
Proof.
  split; [|reflexivity].
  intros ch self text. split; [|split].
  - intros Hp. run_py. rewrite Hp. reflexivity.
  - intros p Hp Hw. run_py. rewrite Hp, Hw. reflexivity.
  - intros p w data Hp Hw He r. subst r.
    rewrite (write_command_run ch self p w text data Hp Hw He).
    unfold calls, after, result, pipe_calls. cbn [fst snd].
    split; [reflexivity|]. split; [|split; [|split]].
    + intros ->. reflexivity.
    + intros -> ->. reflexivity.
    + intros ->. reflexivity.
    + intros -> ->. reflexivity.
Qed.

Lemma write_command_contract_witness :
  write_command Sample.obedient (py "list") Sample.server
    = (Return tt, Sample.server, []) /\
  write_command Sample.obedient (py "list") Sample.pipeless
    = (Return tt, Sample.pipeless, []) /\
  calls (write_command Sample.broken (py "list") (Sample.running []))
    = [StdinWrite 4242 (pyb "list" ++ [x0a])] /\
  result (write_command Sample.broken (py "list") (Sample.running []))
    = Return tt.
Proof.
  pose proof (proj1 write_command_contract) as H.
  split; [|split].
  - apply (proj1 (H Sample.obedient Sample.server (py "list"))). reflexivity.
  - apply (proj1 (proj2 (H Sample.obedient Sample.pipeless (py "list")))
             Sample.pipeless_child); reflexivity.
  - pose proof (proj2 (proj2 (H Sample.broken (Sample.running []) (py "list")))
                  (Sample.child [] None) {| sent := [] |} (pyb "list")
                  eq_refl eq_refl eq_refl) as (Hc & _ & _ & Hb & _).
    split; [exact Hc | apply Hb; reflexivity].
Defined.

(** C10. [write_command] neither checks nor escapes its text: whatever the
    text, the pipe is handed its encoding followed by one newline, every
    newline of the text is a newline octet of that encoding, and the octets
    handed over make one line more than the text has newlines.  Sending
    [say hi], a newline and [stop] in one call hands the child two lines,
    the second of which is the line that [stop] itself sends. *)
Theorem write_command_passes_newlines :
  (forall (ch : Child) (self : ServerProcess) (p : Process)
          (w : StreamWriter) (text : str) (data : bytes),
      process self = Some p -> stdin p = Some w ->
      Utf8.encode text = Some data ->
      written (calls (write_command ch text self)) = [data ++ [x0a]] /\
      newline_octets data = newlines text /\
      List.length (iter_lines (data ++ [x0a])) = S (newlines text)) /\
  (let r := write_command Sample.obedient
              (py "say hi" ++ [newline] ++ py "stop") (Sample.running []) in
   written (calls r) = [pyb "say hi" ++ [x0a] ++ pyb "stop" ++ [x0a]] /\
   option_map (fun h => option_map sent (stdin h)) (process (after r)) =
     Some (Some (pyb "say hi" ++ [x0a] ++ pyb "stop" ++ [x0a])) /\
   flat_map iter_lines (written (calls r)) =
     [pyb "say hi" ++ [x0a]; pyb "stop" ++ [x0a]] /\
   written (calls (stop Sample.obedient (Sample.running []))) =
     [pyb "stop" ++ [x0a]]).
Proof.
  split; [|cbv zeta; repeat split].
  intros ch self p w text data Hp Hw He.
  rewrite (write_command_run ch self p w text data Hp Hw He).
  unfold calls, pipe_calls. cbn [snd]. split; [|split].
  - destruct (on_write ch); reflexivity.
  - apply encode_newlines, He.
  - rewrite iter_lines_terminated. f_equal. apply encode_newlines, He.
Qed.

Lemma write_command_passes_newlines_witness :
  written (calls (write_command Sample.stubborn
                    (py "a" ++ [newline] ++ py "b") (Sample.running [])))
    = [pyb "a" ++ [x0a] ++ pyb "b" ++ [x0a]] /\
  newline_octets (pyb "a" ++ [x0a] ++ pyb "b") = 1%nat /\
  List.length (iter_lines (pyb "a" ++ [x0a] ++ pyb "b" ++ [x0a])) = 2%nat.
Proof.
  exact (proj1 write_command_passes_newlines Sample.stubborn
           (Sample.running []) (Sample.child [] None) {| sent := [] |}
           (py "a" ++ [newline] ++ py "b") (pyb "a" ++ [x0a] ++ pyb "b")
           eq_refl eq_refl eq_refl).
Defined.

(** *** [start] *)

(** What [start] does when [is_running] is false: one launch, whose
    outcome decides everything. *)
Lemma start_run (os : OS) (self : ServerProcess) :
  result (is_running self) = Return false ->
  start os self =
  (match spawn os [ py "java"; py "-Xms" ++ min_mem self;
                   py "-Xmx" ++ max_mem self; py "-jar"; jar_path self;
                   py "nogui" ]
              (working_dir self) PIPE PIPE STDOUT with
  | Return p => (Return true, with_process (Some p) self)
  | Raise e =>
      (if exn_eqb e FileNotFoundError then Return false else Raise e, self)
  end,
  [ Exec [ py "java"; py "-Xms" ++ min_mem self; py "-Xmx" ++ max_mem self;
           py "-jar"; jar_path self; py "nogui" ]
         (working_dir self) PIPE PIPE STDOUT ]).
Proof.
  intros H. rewrite is_running_run in H. unfold result in H. cbn in H.
  injection H as H. unfold start. unfold bind at 1.
  rewrite is_running_run, H.
  unfold create_subprocess_exec, try_except, bind, get_self, set_process,
    emit, lift, ret.
  cbv beta iota zeta.
  destruct (spawn os _ (working_dir self) PIPE PIPE STDOUT) as [p|e];
    [reflexivity|].
  destruct (exn_eqb e FileNotFoundError); reflexivity.
Qed.

Lemma spawn_piped (os : OS) (argv : list str) (cwd : Path)
      (fd2 : redirect) (p : Process) :
  spawn os argv cwd PIPE PIPE fd2 = Return p ->
  p = {| pid := new_pid os; returncode := None;
         stdin := Some {| sent := [] |};
         stdout := Some {| buffer := new_output os;
                           limit := DEFAULT_LIMIT |} |}.
Proof.
  unfold spawn. destruct argv as [|prog args]; [discriminate|].
  destruct (other_fault os (prog :: args) cwd); [discriminate|].
  destruct (first_error ((prog :: args) ++ [path_str cwd])); [discriminate|].
  destruct (negb (dir_exists os cwd));
    [destruct (file_exists os (path_str cwd)); discriminate|].
  destruct (which os prog); try discriminate.
  now intros [= <-].
Qed.

Lemma is_running_cases (self : ServerProcess) :
  result (is_running self) = Return true \/
  result (is_running self) = Return false.
Proof.
  rewrite is_running_run. unfold result. cbn [fst].
  destruct (process self) as [p|]; [destruct (returncode p)|]; auto.
Qed.

(** C9. A [start] that returns [True] has made one launch: of [java],
    [-Xms] with [min_mem], [-Xmx] with [max_mem], [-jar], the archive path
    and [nogui], in this order, in the configured working directory, with
    standard input and standard output as pipes and standard error sent to
    standard output; the handle it stores has both pipes and no exit
    status. *)
Theorem start_launch_shape :
  forall (os : OS) (self : ServerProcess),
    result (start os self) = Return true ->
    calls (start os self) =
      [ Exec [ py "java"; py "-Xms" ++ min_mem self;
               py "-Xmx" ++ max_mem self; py "-jar"; jar_path self;
               py "nogui" ]
             (working_dir self) PIPE PIPE STDOUT ] /\
    exists p out,
      after (start os self) = with_process (Some p) self /\
      returncode p = None /\
      stdin p = Some {| sent := [] |} /\
      stdout p = Some {| buffer := out; limit := DEFAULT_LIMIT |}.
Proof.
  intros os self H.
  destruct (is_running_cases self) as [Hr|Hr].
  - rewrite (start_refuses_when_running_aux os self Hr) in H. discriminate H.
  - rewrite (start_run os self Hr) in *.
    destruct (spawn _ _ _ _ _ _) as [p|e] eqn:Hs.
    + split; [reflexivity|]. apply spawn_piped in Hs. subst p.
      eexists _, _. repeat split.
    + unfold result in H. cbn in H.
      destruct (exn_eqb e FileNotFoundError); discriminate H.
Qed.

Lemma start_launch_shape_witness :
  result (start Sample.os Sample.server) = Return true /\
  calls (start Sample.os Sample.server) =
    [ Exec [ py "java"; py "-Xms2G"; py "-Xmx4G"; py "-jar";
             py "server.jar"; py "nogui" ]
           (PurePath (py "/srv/mc")) PIPE PIPE STDOUT ].
Proof.
  split; [reflexivity|].
  exact (proj1 (start_launch_shape Sample.os Sample.server eq_refl)).
Defined.

(** C3 (as stated, refuted). No file is found at the archive path, so the
    runnable artifact cannot be located; the launch of the runtime succeeds
    all the same, [start] returns [True] and keeps the handle, and
    [is_running] is true afterwards. *)
Lemma start_succeeds_without_archive :
  file_exists Sample.no_archive (jar_path Sample.server) = false /\
  artifact_usable Sample.no_archive Sample.server = false /\
  result (start Sample.no_archive Sample.server) = Return true /\
  process (after (start Sample.no_archive Sample.server)) =
    Some (Sample.child [] None) /\
  result (is_running (after (start Sample.no_archive Sample.server))) =
    Return true.
Proof. repeat split. Qed.

(** A clear launch that finds no working directory, or no runtime, raises
    [FileNotFoundError]. *)
Lemma launch_not_found_raises (os : OS) (self : ServerProcess) :
  launch_not_found os self = true -> launch os self = Raise FileNotFoundError.
Proof.
  unfold launch_not_found, launch_clear, launch, spawn. cbn [command_line].
  intros H. apply andb_true_iff in H as [Hc Hn].
  destruct (other_fault os _ (working_dir self)); [discriminate Hc|].
  destruct (first_error _); [discriminate Hc|].
  destruct (dir_exists os (working_dir self)); cbn [negb].
  - destruct (which os (py "java")); try discriminate Hn. reflexivity.
  - apply negb_true_iff in Hn. now rewrite Hn.
Qed.

(** C3 (amended). When [is_running] is false and the launch raises
    [FileNotFoundError], [start] makes that one launch, returns [False]
    without raising and leaves the object as it was: the failed launch
    stores no handle, and [is_running] is false afterwards. *)
Theorem start_false_when_not_found :
  forall (os : OS) (self : ServerProcess),
    result (is_running self) = Return false ->
    launch os self = Raise FileNotFoundError ->
    start os self =
      (Return false, self,
       [ Exec [ py "java"; py "-Xms" ++ min_mem self;
                py "-Xmx" ++ max_mem self; py "-jar"; jar_path self;
                py "nogui" ]
              (working_dir self) PIPE PIPE STDOUT ]) /\
    result (is_running (after (start os self))) = Return false.
Proof.
  intros os self Hr Hn.
  assert (Hs : start os self =
      (Return false, self,
       [ Exec [ py "java"; py "-Xms" ++ min_mem self;
                py "-Xmx" ++ max_mem self; py "-jar"; jar_path self;
                py "nogui" ]
              (working_dir self) PIPE PIPE STDOUT ])).
  { rewrite (start_run os self Hr). unfold launch, command_line in Hn.
    rewrite Hn. reflexivity. }
  split; [exact Hs|]. rewrite Hs. exact Hr.
Qed.

Lemma start_false_when_not_found_witness :
  result (is_running Sample.server) = Return false /\
  launch Sample.no_runtime Sample.server = Raise FileNotFoundError /\
  result (start Sample.no_runtime Sample.server) = Return false /\
  process (after (start Sample.no_runtime Sample.server)) = None.
Proof.
  pose proof (start_false_when_not_found Sample.no_runtime Sample.server
                eq_refl eq_refl) as [H _].
  split; [reflexivity|]. split; [reflexivity|].
  rewrite H. split; reflexivity.
Defined.

(** *** [stream_logs] *)

(** The lines of the iteration are what repeated [readline] returns. *)
Lemma iter_lines_readline (b : byte) (buf : bytes) :
  iter_lines (b :: buf) =
  fst (readline (b :: buf)) :: iter_lines (snd (readline (b :: buf))).
Proof.
  revert b. induction buf as [|c buf IH]; intros b.
  - cbn. destruct (is_nl b); reflexivity.
  - cbn [iter_lines readline]. destruct (is_nl b) eqn:Hb; [reflexivity|].
    specialize (IH c). cbn [iter_lines readline] in IH. rewrite IH.
    destruct (is_nl c); [reflexivity|].
    destruct (readline buf) as [l rest]. reflexivity.
Qed.

(** The lines, put end to end, are the stream: nothing is lost, added or
    reordered. *)
Lemma iter_lines_concat (buf : bytes) : List.concat (iter_lines buf) = buf.
Proof.
  induction buf as [|b buf IH]; [reflexivity|].
  cbn [iter_lines]. destruct (is_nl b).
  - cbn. now rewrite IH.
  - destruct (iter_lines buf) as [|l ls]; cbn in *; now rewrite <- IH.
Qed.

Lemma log_loop_good (lim : N) (ls : list bytes) (ss : list str) :
  within_limit lim ls = true ->
  Forall2 log_line ls ss ->
  log_loop lim ls = (Return tt, [], List.map Yield ss).
Proof.
  intros Hl Hd. induction Hd as [|l s ls ss (t & Ht & ->) _ IH].
  - reflexivity.
  - cbn in Hl. apply andb_true_iff in Hl as [Hl1 Hl2].
    cbn [log_loop].
    assert (Hlt : (lim <? sep_index l) = false)
      by (apply N.ltb_ge; now apply N.leb_le).
    rewrite Hlt. unfold decode. rewrite Ht, (IH Hl2). reflexivity.
Qed.

(** Whatever the output, what the loop yields is the stripped decoding of
    an initial run of the lines, and nothing else. *)
Lemma log_loop_prefix (lim : N) (ls : list bytes) :
  exists (k : nat) (ss : list str),
    Forall2 log_line (firstn k ls) ss /\
    snd (log_loop lim ls) = List.map Yield ss.
Proof.
  induction ls as [|l ls (k & ss & Hd & Ht)].
  - exists 0%nat, []. split; [constructor | reflexivity].
  - cbn [log_loop]. destruct (lim <? sep_index l).
    + exists 0%nat, []. split; [constructor | reflexivity].
    + unfold decode. destruct (Utf8.decode l) as [t|] eqn:Hl.
      * exists (S k), (strip t :: ss).
        destruct (log_loop lim ls) as [[o rest] tr]. cbn in Ht |- *.
        split; [constructor; [exists t; auto | exact Hd] | now rewrite Ht].
      * exists 0%nat, []. split; [constructor | reflexivity].
Qed.

(** What [stream_logs] does on a handle with an output pipe. *)
Lemma stream_logs_run (self : ServerProcess) (p : Process) (r : StreamReader) :
  process self = Some p -> stdout p = Some r ->
  stream_logs self =
  (fst (fst (log_loop (limit r) (iter_lines (buffer r)))),
   with_process
     (Some (set_stdout
              (Some {| buffer :=
                         snd (fst (log_loop (limit r) (iter_lines (buffer r))));
                       limit := limit r |}) p)) self,
   snd (log_loop (limit r) (iter_lines (buffer r)))).
Proof.
  intros Hp Hr. run_py. rewrite Hp, Hr.
  destruct (log_loop (limit r) (iter_lines (buffer r))) as [[o rest] t].
  reflexivity.
Qed.

(** C5 (as stated, refuted). The child writes two spaces, [A] and a
    newline.  Trimmed at its end only, the line keeps its two leading
    spaces; [stream_logs] yields [A] alone, since [strip] trims both
    ends. *)
Lemma stream_logs_trims_leading_whitespace :
  trailing_trimmed (iter_lines (pyb "  A" ++ [x0a])) = Some [py "  A"] /\
  yielded (calls (stream_logs (Sample.running (pyb "  A" ++ [x0a])))) =
    [py "A"] /\
  py "A" <> py "  A".
Proof. repeat split. discriminate. Qed.

(** A line that is not UTF-8 ends the sequence with an error, after the
    lines before it. *)
Lemma stream_logs_undecodable_line :
  let r := stream_logs (Sample.running (pyb "A" ++ [x0a; xff; x0a])) in
  result r = Raise UnicodeDecodeError /\ yielded (calls r) = [py "A"].
Proof. repeat split. Qed.

(** C5 (amended). With no handle or no output pipe, [stream_logs] yields
    nothing and ends at once.  Otherwise, when every line of the output is
    within the limit of the reader and is valid UTF-8, it yields, for each
    line in the order of the stream, that line decoded and stripped of
    whitespace at both ends, yields nothing else, and ends normally when the
    stream is exhausted; the lines put end to end are the octets the child
    wrote.  Whatever the output, what is yielded is the stripped decoding of
    an initial run of the lines.  A child that writes [A], newline, [B], newline yields [A], then
    [B], then the end. *)
Theorem stream_logs_yields_stripped_lines :
  (forall self : ServerProcess,
      process self = None -> stream_logs self = (Return tt, self, [])) /\
  (forall (self : ServerProcess) (p : Process),
      process self = Some p -> stdout p = None ->
      stream_logs self = (Return tt, self, [])) /\
  (forall (self : ServerProcess) (p : Process) (r : StreamReader)
          (ss : list str),
      process self = Some p -> stdout p = Some r ->
      within_limit (limit r) (iter_lines (buffer r)) = true ->
      Forall2 log_line (iter_lines (buffer r)) ss ->
      result (stream_logs self) = Return tt /\
      calls (stream_logs self) = List.map Yield ss /\
      List.concat (iter_lines (buffer r)) = buffer r) /\
  (forall (self : ServerProcess) (p : Process) (r : StreamReader),
      process self = Some p -> stdout p = Some r ->
      exists (k : nat) (ss : list str),
        Forall2 log_line (firstn k (iter_lines (buffer r))) ss /\
        calls (stream_logs self) = List.map Yield ss) /\
  stream_logs (Sample.running (pyb "A" ++ [x0a] ++ pyb "B" ++ [x0a])) =
    (Return tt, Sample.running [], [Yield (py "A"); Yield (py "B")]).
Proof.
  split; [|split; [|split; [|split]]].
  - intros self Hp. run_py. rewrite Hp. reflexivity.
  - intros self p Hp Hr. run_py. rewrite Hp, Hr. reflexivity.
  - intros self p r ss Hp Hr Hl Hd.
    rewrite (stream_logs_run self p r Hp Hr), (log_loop_good _ _ _ Hl Hd).
    repeat split. apply iter_lines_concat.
  - intros self p r Hp Hr. rewrite (stream_logs_run self p r Hp Hr).
    apply log_loop_prefix.
  - reflexivity.
Qed.

Lemma stream_logs_yields_stripped_lines_witness :
  stream_logs Sample.server = (Return tt, Sample.server, []) /\
  stream_logs Sample.pipeless = (Return tt, Sample.pipeless, []) /\
  calls (stream_logs (Sample.running (pyb " ok " ++ [x0a; x09] ++ pyb "at x")))
    = [Yield (py "ok"); Yield (py "at x")].
Proof.
  destruct stream_logs_yields_stripped_lines as (H1 & H2 & H3 & _ & _).
  split; [|split].
  - apply H1. reflexivity.
  - apply (H2 Sample.pipeless Sample.pipeless_child); reflexivity.
  - refine (proj1 (proj2 (H3 (Sample.running
                                (pyb " ok " ++ [x0a; x09] ++ pyb "at x"))
                            (Sample.child
                               (pyb " ok " ++ [x0a; x09] ++ pyb "at x") None)
                            {| buffer := pyb " ok " ++ [x0a; x09] ++ pyb "at x";
                               limit := DEFAULT_LIMIT |}
                            [py "ok"; py "at x"] eq_refl eq_refl eq_refl _))).
    repeat constructor;
      [exists (py " ok " ++ [newline]) | exists (9 :: py "at x")];
      split; reflexivity.
Defined.
(* ================================================================== *)
(** ** The methods in full *)
(* ================================================================== *)

(** [write_command], whatever the object, the text and the child. *)
Lemma write_command_total (ch : Child) (text : str) (self : ServerProcess) :
  write_command ch text self =
  match process self with
  | None => (Return tt, self, [])
  | Some p =>
      match stdin p with
      | None => (Return tt, self, [])
      | Some w =>
          match Utf8.encode (text ++ [newline]) with
          | None => (Raise UnicodeEncodeError, self, [])
          | Some d =>
              (command_outcome ch,
               match on_write ch with
               | Some _ => self
               | None =>
                   with_process
                     (Some (set_stdin (Some {| sent := sent w ++ d |}) p))
                     self
               end,
               pipe_calls ch (pid p) d)
          end
      end
  end.
Proof.
  unfold command_outcome, pipe_calls. run_py.
  destruct (process self) as [p|] eqn:Hp; [|reflexivity].
  destruct (stdin p) as [w|] eqn:Hw; [|reflexivity].
  destruct (Utf8.encode (text ++ [newline])) as [d|]; [|reflexivity].
  cbn. rewrite Hp. cbn. rewrite Hw. cbn.
  destruct (on_write ch) as [e|]; cbn.
  - destruct (exn_eqb e BrokenPipeError); reflexivity.
  - destruct (on_drain ch) as [e|]; cbn;
      [destruct (exn_eqb e BrokenPipeError)|]; reflexivity.
Qed.

(** [stop], whatever the object and the child: on a live handle it is
    [write_command] with [stop], and, when that returns, the bounded wait
    and the clearing of the handle. *)
Lemma stop_total (ch : Child) (self : ServerProcess) :
  stop ch self =
  match process self with
  | None => (Return tt, self, [])
  | Some p =>
      match returncode p with
      | Some _ => (Return tt, with_process None self, [])
      | None =>
          match write_command ch (py "stop") self with
          | (Return _, _, t) =>
              (Return tt, with_process None self, t ++ wait_calls ch (pid p))
          | (Raise e, s1, t) => (Raise e, s1, t)
          end
      end
  end.
Proof.
  destruct (process self) as [p|] eqn:Hp.
  2:{ run_py. rewrite Hp. reflexivity. }
  destruct (returncode p) as [rc|] eqn:Hrc.
  { run_py. rewrite Hp, Hrc. reflexivity. }
  unfold stop. unfold bind at 1. unfold get_self at 1. rewrite Hp, Hrc.
  unfold bind at 1. rewrite write_command_total, Hp.
  destruct (stdin p) as [w|] eqn:Hw.
  - change (Utf8.encode (py "stop" ++ [newline]))
      with (Some (pyb "stop" ++ [x0a])).
    cbv iota beta.
    destruct (command_outcome ch) as [[]|e]; [|reflexivity].
    destruct (on_write ch).
    + rewrite (stop_tail_run ch self p Hp). reflexivity.
    + set (s1 := with_process _ self).
      rewrite (stop_tail_run ch s1 _ eq_refl). reflexivity.
  - rewrite (stop_tail_run ch self p Hp). reflexivity.
Qed.

(** [start], whatever the object and the machine. *)
Lemma start_total (os : OS) (self : ServerProcess) :
  start os self =
  match result (is_running self) with
  | Return true => (Return false, self, [])
  | _ =>
      (match spawn os [ py "java"; py "-Xms" ++ min_mem self;
                        py "-Xmx" ++ max_mem self; py "-jar"; jar_path self;
                        py "nogui" ]
                   (working_dir self) PIPE PIPE STDOUT with
       | Return p => (Return true, with_process (Some p) self)
       | Raise e =>
           (if exn_eqb e FileNotFoundError then Return false else Raise e,
            self)
       end,
       [ Exec [ py "java"; py "-Xms" ++ min_mem self;
                py "-Xmx" ++ max_mem self; py "-jar"; jar_path self;
                py "nogui" ]
              (working_dir self) PIPE PIPE STDOUT ])
  end.
Proof.
  destruct (is_running_cases self) as [H|H]; rewrite H.
  - apply start_refuses_when_running_aux, H.
  - apply start_run, H.
Qed.

(* ================================================================== *)
(** ** Errors of [write_command] and [stop] *)
(* ================================================================== *)

Lemma command_outcome_raise (ch : Child) (e : exn) :
  command_outcome ch = Raise e <-> pipe_raises ch e.
Proof.
  unfold command_outcome, pipe_raises. split.
  - destruct (on_write ch) as [a|].
    + destruct a; cbn; intros [= <-]; split; auto; discriminate.
    + destruct (on_drain ch) as [a|]; [|discriminate].
      destruct a; cbn; intros [= <-]; split; auto; discriminate.
  - intros [Hne [-> | [-> ->]]]; destruct e; cbn; congruence.
Qed.

Lemma command_outcome_cases (ch : Child) :
  command_outcome ch = Return tt \/ exists e, command_outcome ch = Raise e.
Proof.
  destruct (command_outcome ch) as [[]|e]; [left | right; exists e];
    reflexivity.
Qed.

Lemma encode_surrogate_none (s t : str) :
  has_surrogate s = true -> Utf8.encode (s ++ t) = None.
Proof.
  induction s as [|c s IH]; [discriminate|].
  cbn [has_surrogate existsb app Utf8.encode]. intros H.
  apply orb_true_iff in H as [H|H].
  - assert (Hc : Utf8.encode_cp c = None).
    { unfold Utf8.encode_cp. rewrite H.
      unfold Utf8.is_surrogate in H. apply andb_true_iff in H as [Ha Hb].
      apply N.leb_le in Ha, Hb.
      destruct (N.ltb_spec c 0x80); [lia|].
      destruct (N.ltb_spec c 0x800); [lia|].
      destruct (N.ltb_spec c 0x10000); [reflexivity | lia]. }
    now rewrite Hc.
  - unfold has_surrogate in IH. rewrite (IH H).
    destruct (Utf8.encode_cp c); reflexivity.
Qed.

(** X1. [write_command] raises in two cases only, both on a handle with an
    input pipe: the text has no UTF-8 encoding, and the error is
    [UnicodeEncodeError]; or the pipe answers the command with an error
    other than [BrokenPipeError], and that error is the one raised.  In no
    other case does an error leave [write_command]. *)
Theorem write_command_raises_iff :
  forall (ch : Child) (text : str) (self : ServerProcess) (e : exn),
    result (write_command ch text self) = Raise e <->
    exists p w,
      process self = Some p /\ stdin p = Some w /\
      ((Utf8.encode (text ++ [newline]) = None /\ e = UnicodeEncodeError) \/
       (Utf8.encode (text ++ [newline]) <> None /\ pipe_raises ch e)).
Proof.
  intros ch text self e. rewrite write_command_total.
  destruct (process self) as [p|].
  2:{ split; [discriminate | intros (p & w & H & _); discriminate]. }
  destruct (stdin p) as [w|] eqn:Hw.
  2:{ split; [discriminate|].
      intros (q & v & [= <-] & Hv & _). congruence. }
  destruct (Utf8.encode (text ++ [newline])) as [d|]; unfold result; cbn.
  - rewrite command_outcome_raise. split.
    + intros H. exists p, w. repeat split; auto. right. split; [discriminate|].
      exact H.
    + intros (_ & _ & _ & _ & [[H _] | [_ H]]); [discriminate | exact H].
  - split.
    + intros [= <-]. exists p, w. auto.
    + intros (_ & _ & _ & _ & [[_ ->] | [H _]]); [reflexivity | congruence].
Qed.

Lemma write_command_raises_iff_witness :
  result (write_command Scene.refusing (py "list") (Sample.running []))
  = Raise PermissionError.
Proof.
  apply (proj2 (write_command_raises_iff Scene.refusing (py "list")
                  (Sample.running []) PermissionError)).
  exists (Sample.child [] None), {| sent := [] |}.
  split; [reflexivity|]. split; [reflexivity|]. right.
  split; [discriminate|]. split; [discriminate|]. left. reflexivity.
Defined.

(** X2. A text that holds a lone surrogate has no UTF-8 encoding: on a
    handle with an input pipe [write_command] raises [UnicodeEncodeError]
    before anything reaches the pipe, and the object is as it was. *)
Theorem write_command_surrogate :
  forall (ch : Child) (text : str) (self : ServerProcess) (p : Process)
         (w : StreamWriter),
    process self = Some p -> stdin p = Some w ->
    has_surrogate text = true ->
    write_command ch text self = (Raise UnicodeEncodeError, self, []).
Proof.
  intros ch text self p w Hp Hw Hs.
  apply (write_command_unencodable ch self p w text Hp Hw).
  apply encode_surrogate_none, Hs.
Qed.

Lemma write_command_surrogate_witness :
  write_command Sample.obedient (py "say " ++ [0xD83D]) (Sample.running [])
  = (Raise UnicodeEncodeError, Sample.running [], []).
Proof.
  apply (write_command_surrogate Sample.obedient (py "say " ++ [0xD83D])
           (Sample.running []) (Sample.child [] None) {| sent := [] |});
    reflexivity.
Defined.

(** X3. [stop] raises exactly when the handle is live, has an input pipe,
    and the pipe answers the shutdown command with an error other than
    [BrokenPipeError]; it then raises that error after the calls on the
    pipe alone, with neither wait nor kill, and the handle is still there,
    so that [is_running] is still true. *)
Theorem stop_raises_iff :
  forall (ch : Child) (self : ServerProcess) (e : exn),
    (result (stop ch self) = Raise e <->
     exists p w,
       process self = Some p /\ returncode p = None /\ stdin p = Some w /\
       pipe_raises ch e) /\
    (forall p, process self = Some p ->
       result (stop ch self) = Raise e ->
       calls (stop ch self) = pipe_calls ch (pid p) (pyb "stop" ++ [x0a]) /\
       result (is_running (after (stop ch self))) = Return true).
Proof.
  intros ch self e. rewrite stop_total, write_command_total.
  destruct (process self) as [p|] eqn:Hp.
  2:{ split; [split; [discriminate | intros (p & w & H & _); discriminate]
             | intros p H; discriminate]. }
  destruct (returncode p) as [rc|] eqn:Hrc.
  { split; [split; [discriminate|] | intros q _; discriminate].
    intros (q & w & [= <-] & H & _). congruence. }
  destruct (stdin p) as [w|] eqn:Hw.
  2:{ split; [split; [discriminate|] | intros q _; discriminate].
      intros (q & v & [= <-] & _ & H & _). congruence. }
  change (Utf8.encode (py "stop" ++ [newline]))
    with (Some (pyb "stop" ++ [x0a])). cbv iota beta.
  destruct (command_outcome ch) as [[]|e'] eqn:Hc.
  - split; [split; [discriminate|] | intros q _; discriminate].
    intros (_ & _ & _ & _ & _ & H). apply command_outcome_raise in H.
    congruence.
  - unfold result, calls, after. cbn [fst snd]. split.
    + split.
      * intros [= <-]. exists p, w.
        split; [reflexivity|]. split; [exact Hrc|]. split; [exact Hw|].
        now apply command_outcome_raise.
      * intros (_ & _ & _ & _ & _ & H). apply command_outcome_raise in H.
        congruence.
    + intros q [= <-] _. split; [reflexivity|].
      rewrite is_running_run. cbn [fst].
      destruct (on_write ch); cbn; rewrite ?Hp, ?Hrc; reflexivity.
Qed.

Lemma stop_raises_iff_witness :
  result (stop Scene.refusing (Sample.running [])) = Raise PermissionError /\
  calls (stop Scene.refusing (Sample.running [])) =
    [StdinWrite 4242 (pyb "stop" ++ [x0a])].
Proof.
  assert (H : result (stop Scene.refusing (Sample.running []))
              = Raise PermissionError).
  { apply (proj2 (proj1 (stop_raises_iff Scene.refusing (Sample.running [])
                           PermissionError))).
    exists (Sample.child [] None), {| sent := [] |}.
    split; [reflexivity|]. split; [reflexivity|]. split; [reflexivity|].
    split; [discriminate | left; reflexivity]. }
  split; [exact H|].
  exact (proj1 (proj2 (stop_raises_iff Scene.refusing (Sample.running [])
                         PermissionError) (Sample.child [] None) eq_refl H)).
Defined.

(* ================================================================== *)
(** ** What the methods leave alone *)
(* ================================================================== *)

Lemma same_config_with_process (h : option Process) (self : ServerProcess) :
  same_config (with_process h self) self.
Proof. repeat split. Qed.

Lemma same_config_refl (self : ServerProcess) : same_config self self.
Proof. repeat split. Qed.

Lemma pipe_calls_pipe_only (ch : Child) (p : N) (d : bytes) :
  pipe_only p (pipe_calls ch p d).
Proof.
  unfold pipe_only, pipe_calls. constructor; [right; eauto|].
  destruct (on_write ch); repeat constructor.
Qed.

(** X4. Whatever the text and the child, [write_command] leaves the
    configuration, the presence of the handle, its process identifier, its
    exit status and its output pipe as they were, and makes no call but
    writes and drains on the input pipe of that process; the only thing it
    may change is what the input pipe has been handed, and that only
    grows. *)
Theorem write_command_frame :
  forall (ch : Child) (text : str) (self : ServerProcess),
    let r := write_command ch text self in
    same_config (after r) self /\
    (process self = None -> process (after r) = None /\ calls r = []) /\
    (forall p, process self = Some p ->
       pipe_only (pid p) (calls r) /\
       exists p',
         process (after r) = Some p' /\
         pid p' = pid p /\ returncode p' = returncode p /\
         stdout p' = stdout p /\
         (stdin p = None -> stdin p' = None) /\
         (forall w, stdin p = Some w ->
            exists d, stdin p' = Some {| sent := sent w ++ d |})).
Proof.
  intros ch text self r. subst r. rewrite write_command_total.
  destruct (process self) as [p|] eqn:Hp.
  2:{ split; [apply same_config_refl|]. split; [auto | discriminate]. }
  assert (Hsame : forall t : list event,
             pipe_only (pid p) t ->
             same_config self self /\
             (Some p = None -> process self = None /\ t = []) /\
             (forall q, Some p = Some q ->
                pipe_only (pid q) t /\
                exists p', process self = Some p' /\ pid p' = pid q /\
                  returncode p' = returncode q /\ stdout p' = stdout q /\
                  (stdin q = None -> stdin p' = None) /\
                  (forall w, stdin q = Some w ->
                     exists d, stdin p' = Some {| sent := sent w ++ d |}))).
  { intros t Ht. split; [apply same_config_refl|]. split; [discriminate|].
    intros q [= <-]. split; [exact Ht|]. exists p. repeat split; auto.
    intros w Hw. exists []. rewrite app_nil_r. now destruct w. }
  destruct (stdin p) as [w|] eqn:Hw; [|apply Hsame; constructor].
  destruct (Utf8.encode (text ++ [newline])) as [d|];
    [|apply Hsame; constructor].
  unfold after, calls. cbn [fst snd].
  destruct (on_write ch) as [e|] eqn:Hwr.
  - apply Hsame. unfold pipe_calls. rewrite Hwr.
    constructor; [right; eauto | constructor].
  - split; [apply same_config_with_process|]. split; [discriminate|].
    intros q [= <-]. split.
    + pose proof (pipe_calls_pipe_only ch (pid p) d) as H.
      unfold pipe_calls in H |- *. rewrite Hwr in H |- *. exact H.
    + eexists. split; [reflexivity|]. cbn.
      split; [reflexivity|]. split; [reflexivity|]. split; [reflexivity|].
      split; [congruence|]. intros v Hv. exists d. congruence.
Qed.

(** X5. Two commands sent one after the other, each write accepted, reach
    the pipe in that order: what the pipe has been handed ends with the
    first text, a newline, the second text, a newline. *)
Theorem write_command_twice :
  forall (ch1 ch2 : Child) (a b : str) (self : ServerProcess) (p : Process)
         (w : StreamWriter) (da db : bytes),
    process self = Some p -> stdin p = Some w ->
    Utf8.encode a = Some da -> Utf8.encode b = Some db ->
    on_write ch1 = None -> on_write ch2 = None ->
    let s1 := after (write_command ch1 a self) in
    let s2 := after (write_command ch2 b s1) in
    process s2 =
      Some (set_stdin
              (Some {| sent := sent w ++ (da ++ [x0a]) ++ (db ++ [x0a]) |}) p)
    /\
    written (calls (write_command ch1 a self) ++
             calls (write_command ch2 b s1)) = [da ++ [x0a]; db ++ [x0a]].
Proof.
  intros ch1 ch2 a b self p w da db Hp Hw Ha Hb H1 H2 s1 s2. subst s1 s2.
  rewrite (write_command_run ch1 self p w a da Hp Hw Ha), H1.
  unfold after at 2 3. cbn [fst snd].
  set (p1 := set_stdin (Some {| sent := sent w ++ da ++ [x0a] |}) p).
  rewrite (write_command_run ch2 (with_process (Some p1) self) p1
             {| sent := sent w ++ da ++ [x0a] |} b db eq_refl eq_refl Hb), H2.
  unfold after, calls, pipe_calls. rewrite H1, H2. cbn [fst snd].
  split; [|reflexivity]. subst p1. cbn. now rewrite <- app_assoc.
Qed.

Lemma write_command_twice_witness :
  option_map (fun h => option_map sent (stdin h))
    (process (after (write_command Sample.obedient (py "stop")
                       (after (write_command Sample.obedient (py "say bye")
                                 (Sample.running []))))))
  = Some (Some (pyb "say bye" ++ [x0a] ++ pyb "stop" ++ [x0a])).
Proof.
  rewrite (proj1 (write_command_twice Sample.obedient Sample.obedient
                    (py "say bye") (py "stop") (Sample.running [])
                    (Sample.child [] None) {| sent := [] |}
                    (pyb "say bye") (pyb "stop")
                    eq_refl eq_refl eq_refl eq_refl eq_refl eq_refl)).
  reflexivity.
Defined.

(* ================================================================== *)
(** ** After [stop] *)
(* ================================================================== *)

Lemma stop_returns_cleared (ch : Child) (self : ServerProcess) :
  result (stop ch self) = Return tt ->
  process (after (stop ch self)) = None.
Proof.
  rewrite stop_total.
  destruct (process self) as [p|] eqn:Hp; [|intros _; exact Hp].
  destruct (returncode p); [reflexivity|].
  destruct (write_command ch (py "stop") self) as [[[[]|e] s1] t];
    [reflexivity | discriminate].
Qed.

(** X6. Once [stop] has returned, the supervisor is idle: [is_running] is
    false, a second [stop], a [write_command] and a [stream_logs] all return
    at once, make no call and leave the object as it is. *)
Theorem after_stop_idle :
  forall (ch ch' : Child) (text : str) (self : ServerProcess),
    result (stop ch self) = Return tt ->
    let s := after (stop ch self) in
    result (is_running s) = Return false /\
    stop ch' s = (Return tt, s, []) /\
    write_command ch' text s = (Return tt, s, []) /\
    stream_logs s = (Return tt, s, []).
Proof.
  intros ch ch' text self H s.
  pose proof (stop_returns_cleared ch self H) as Hn. fold s in Hn.
  split; [|split; [|split]].
  - rewrite is_running_run, Hn. reflexivity.
  - rewrite stop_total, Hn. reflexivity.
  - rewrite write_command_total, Hn. reflexivity.
  - run_py. rewrite Hn. reflexivity.
Qed.

Lemma after_stop_idle_witness :
  stop Sample.obedient (after (stop Sample.stubborn (Sample.running [])))
  = (Return tt, Sample.server, []).
Proof.
  exact (proj1 (proj2 (after_stop_idle Sample.stubborn Sample.obedient []
                         (Sample.running []) eq_refl))).
Defined.

(* ================================================================== *)
(** ** More on [stream_logs] *)
(* ================================================================== *)

Lemma log_loop_app_good (lim : N) (good tail : list bytes) (ss : list str) :
  within_limit lim good = true ->
  Forall2 log_line good ss ->
  log_loop lim (good ++ tail) =
  (fst (fst (log_loop lim tail)), snd (fst (log_loop lim tail)),
   List.map Yield ss ++ snd (log_loop lim tail)).
Proof.
  intros Hl Hd. induction Hd as [|l s ls ss (t & Ht & ->) _ IH].
  - cbn. now destruct (log_loop lim tail) as [[o rest] tr].
  - cbn in Hl. apply andb_true_iff in Hl as [Hl1 Hl2].
    cbn [app log_loop].
    assert (Hlt : (lim <? sep_index l) = false)
      by (apply N.ltb_ge; now apply N.leb_le).
    rewrite Hlt. unfold decode. rewrite Ht, (IH Hl2). reflexivity.
Qed.

(** X7. The first line that the reader refuses or that is not UTF-8 ends
    the sequence: the lines before it have been yielded, stripped, in order;
    then [ValueError] is raised if the line lies beyond the limit of the
    reader, and [UnicodeDecodeError] if it is within the limit and does not
    decode.  Nothing of what follows that line is yielded. *)
Theorem stream_logs_first_bad_line :
  forall (self : ServerProcess) (p : Process) (r : StreamReader)
         (good rest : list bytes) (bad : bytes) (ss : list str),
    process self = Some p -> stdout p = Some r ->
    iter_lines (buffer r) = good ++ bad :: rest ->
    within_limit (limit r) good = true ->
    Forall2 log_line good ss ->
    (limit r < sep_index bad ->
     result (stream_logs self) = Raise ValueError /\
     calls (stream_logs self) = List.map Yield ss) /\
    (sep_index bad <= limit r -> Utf8.decode bad = None ->
     result (stream_logs self) = Raise UnicodeDecodeError /\
     calls (stream_logs self) = List.map Yield ss).
Proof.
  intros self p r good rest bad ss Hp Hr Hi Hl Hd.
  rewrite (stream_logs_run self p r Hp Hr), Hi.
  rewrite (log_loop_app_good _ _ _ _ Hl Hd).
  unfold result, calls. cbn [fst snd log_loop]. split.
  - intros Hb. apply N.ltb_lt in Hb. rewrite Hb. cbn.
    now rewrite app_nil_r.
  - intros Hb Hu. apply N.ltb_ge in Hb. rewrite Hb. unfold decode.
    rewrite Hu. cbn. now rewrite app_nil_r.
Qed.

Lemma stream_logs_first_bad_line_witness :
  result (stream_logs (Sample.running (pyb "A" ++ [x0a; xff; x0a; x42])))
    = Raise UnicodeDecodeError /\
  calls (stream_logs (Sample.running (pyb "A" ++ [x0a; xff; x0a; x42])))
    = [Yield (py "A")].
Proof.
  refine (proj2 (stream_logs_first_bad_line
                   (Sample.running (pyb "A" ++ [x0a; xff; x0a; x42]))
                   (Sample.child (pyb "A" ++ [x0a; xff; x0a; x42]) None)
                   {| buffer := pyb "A" ++ [x0a; xff; x0a; x42];
                      limit := DEFAULT_LIMIT |}
                   [pyb "A" ++ [x0a]] [[x42]] [xff; x0a] [py "A"]
                   eq_refl eq_refl eq_refl eq_refl _) _ eq_refl).
  - repeat constructor. exists (py "A" ++ [newline]). split; reflexivity.
  - cbv. discriminate.
Defined.

(** *** Stripped text has no whitespace at either end *)

Lemma lstrip_head (s : str) (c : N) (t : str) :
  lstrip s = c :: t -> is_space c = false.
Proof.
  induction s as [|a s IH]; [discriminate|]. cbn.
  destruct (is_space a) eqn:Ha; [exact IH|]. now intros [= <- _].
Qed.

Lemma lstrip_suffix (s : str) : exists pre, s = pre ++ lstrip s.
Proof.
  induction s as [|a s [pre IH]]; [exists []; reflexivity|]. cbn.
  destruct (is_space a).
  - exists (a :: pre). cbn. now rewrite <- IH.
  - exists []. reflexivity.
Qed.

Lemma strip_head (s : str) (c : N) (t : str) :
  strip s = c :: t -> is_space c = false.
Proof.
  unfold strip, rstrip. intros H.
  destruct (lstrip_suffix (rev (lstrip s))) as [pre Hpre].
  apply (f_equal (@rev N)) in Hpre.
  rewrite rev_involutive, rev_app_distr, H in Hpre. cbn in Hpre.
  exact (lstrip_head s c _ Hpre).
Qed.

Lemma strip_last (s : str) (c : N) (t : str) :
  strip s = t ++ [c] -> is_space c = false.
Proof.
  unfold strip, rstrip. intros H.
  apply (f_equal (@rev N)) in H. rewrite rev_involutive, rev_app_distr in H.
  cbn in H. exact (lstrip_head _ c _ H).
Qed.

(** X8. Whatever the child has written, no line that [stream_logs] yields
    begins or ends with a whitespace character; in particular no yielded
    line carries its line terminator. *)
Theorem stream_logs_yields_trimmed :
  forall (self : ServerProcess) (s : str),
    In (Yield s) (calls (stream_logs self)) ->
    (forall c t, s = c :: t -> is_space c = false) /\
    (forall c t, s = t ++ [c] -> is_space c = false).
Proof.
  intros self s Hin.
  assert (Hs : exists t, s = strip t).
  { revert Hin. run_py.
    destruct (process self) as [p|]; [|intros []].
    destruct (stdout p) as [r|]; [|intros []].
    destruct (log_loop_prefix (limit r) (iter_lines (buffer r)))
      as (k & ss & Hd & Ht).
    destruct (log_loop (limit r) (iter_lines (buffer r))) as [[o rest] t].
    cbn in Ht |- *. subst t. intros Hin.
    apply in_map_iff in Hin as (s' & [= ->] & Hin).
    clear -Hd Hin. induction Hd as [|l s' ls ss (t & _ & ->) _ IH].
    - destruct Hin.
    - destruct Hin as [<- | Hin]; [eauto | exact (IH Hin)]. }
  destruct Hs as [t ->]. split; intros c u H.
  - exact (strip_head t c u H).
  - exact (strip_last t c u H).
Qed.

Lemma stream_logs_yields_trimmed_witness :
  (forall c t, py "ok" = c :: t -> is_space c = false) /\
  (forall c t, py "ok" = t ++ [c] -> is_space c = false).
Proof.
  apply (stream_logs_yields_trimmed
           (Sample.running ([x09] ++ pyb " ok " ++ [x0d; x0a]))).
  cbv. left. reflexivity.
Defined.

Lemma log_loop_return_exhausts (lim : N) (ls : list bytes) :
  fst (fst (log_loop lim ls)) = Return tt -> snd (fst (log_loop lim ls)) = [].
Proof.
  induction ls as [|l ls IH]; [reflexivity|]. cbn [log_loop].
  destruct (lim <? sep_index l); [discriminate|].
  destruct (decode l); [|discriminate].
  destruct (log_loop lim ls) as [[o rest] t]. exact IH.
Qed.

(** X9. The sequence cannot be had twice: once [stream_logs] has ended
    normally the output has been used up, and a second [stream_logs] yields
    nothing, ends normally at once and changes nothing. *)
Theorem stream_logs_not_restartable :
  forall self : ServerProcess,
    result (stream_logs self) = Return tt ->
    stream_logs (after (stream_logs self)) =
    (Return tt, after (stream_logs self), []).
Proof.
  intros self H.
  destruct (process self) as [p|] eqn:Hp.
  2:{ assert (E : stream_logs self = (Return tt, self, []))
        by (run_py; now rewrite Hp).
      rewrite E. exact E. }
  destruct (stdout p) as [r|] eqn:Hr.
  2:{ assert (E : stream_logs self = (Return tt, self, []))
        by (run_py; now rewrite Hp, Hr).
      rewrite E. exact E. }
  rewrite (stream_logs_run self p r Hp Hr) in *.
  unfold result in H. cbn [fst] in H.
  apply log_loop_return_exhausts in H. unfold after. cbn [fst snd].
  rewrite H. reflexivity.
Qed.

Lemma stream_logs_not_restartable_witness :
  calls (stream_logs (after (stream_logs (Sample.running (pyb "A" ++ [x0a])))))
  = [].
Proof.
  rewrite (stream_logs_not_restartable (Sample.running (pyb "A" ++ [x0a]))
             eq_refl).
  reflexivity.
Defined.

(** X10. [stream_logs] only reads: it leaves the configuration, the
    presence of the handle, its process identifier, its exit status and its
    input pipe as they were, keeps the output pipe and its limit, and makes
    no call on the child; its trace holds yielded lines only. *)
Theorem stream_logs_frame :
  forall self : ServerProcess,
    let r := stream_logs self in
    same_config (after r) self /\
    yield_only (calls r) /\
    (process self = None -> process (after r) = None) /\
    (forall p, process self = Some p ->
       exists p',
         process (after r) = Some p' /\
         pid p' = pid p /\ returncode p' = returncode p /\
         stdin p' = stdin p /\
         (stdout p = None -> stdout p' = None) /\
         (forall rd, stdout p = Some rd ->
            exists b, stdout p' = Some {| buffer := b; limit := limit rd |})).
Proof.
  intros self r. subst r.
  destruct (process self) as [p|] eqn:Hp.
  2:{ assert (E : stream_logs self = (Return tt, self, []))
        by (run_py; now rewrite Hp).
      rewrite E. unfold after, calls. cbn.
      split; [apply same_config_refl|]. split; [constructor|].
      split; [auto | discriminate]. }
  destruct (stdout p) as [rd|] eqn:Hr.
  2:{ assert (E : stream_logs self = (Return tt, self, []))
        by (run_py; now rewrite Hp, Hr).
      rewrite E. unfold after, calls. cbn.
      split; [apply same_config_refl|]. split; [constructor|].
      split; [congruence|]. intros q [= <-]. exists p.
      repeat split; auto. congruence. }
  rewrite (stream_logs_run self p rd Hp Hr). unfold after, calls.
  cbn [fst snd]. split; [apply same_config_with_process|]. split.
  - destruct (log_loop_prefix (limit rd) (iter_lines (buffer rd)))
      as (k & ss & _ & ->).
    unfold yield_only. apply Forall_forall. intros e He.
    apply in_map_iff in He as (s & <- & _). eauto.
  - split; [discriminate|]. intros q [= <-]. eexists.
    split; [reflexivity|]. cbn. repeat split; [congruence|].
    intros rd' Hrd'. assert (rd' = rd) as -> by congruence. eauto.
Qed.

(** *** A command that comes back *)

Lemma lstrip_app (s t : str) :
  lstrip (s ++ t) = match lstrip s with
                    | [] => lstrip t
                    | _ :: _ => lstrip s ++ t
                    end.
Proof.
  induction s as [|a s IH]; cbn.
  - now destruct (lstrip t).
  - destruct (is_space a); [exact IH | reflexivity].
Qed.

Lemma strip_snoc_space (s : str) (c : N) :
  is_space c = true -> strip (s ++ [c]) = strip s.
Proof.
  intros Hc. unfold strip, rstrip. rewrite lstrip_app.
  destruct (lstrip s) as [|a u] eqn:Hs.
  - cbn. now rewrite Hc.
  - rewrite rev_app_distr. cbn [rev app lstrip]. now rewrite Hc.
Qed.

Lemma iter_lines_one_line (data : bytes) :
  newline_octets data = 0%nat ->
  iter_lines (data ++ [x0a]) = [data ++ [x0a]].
Proof.
  unfold newline_octets. induction data as [|b data IH]; [reflexivity|].
  cbn [filter app iter_lines]. destruct (is_nl b); [discriminate|].
  intros H. now rewrite (IH H).
Qed.

Lemma sep_index_terminated (data : bytes) :
  sep_index (data ++ [x0a]) = N.of_nat (List.length data).
Proof.
  unfold sep_index, ends_with_nl. rewrite rev_app_distr. cbn.
  rewrite length_app. cbn. f_equal. lia.
Qed.

(** X11. A command that comes back is read as it was sent: when the child
    writes to its output the very octets that [write_command] handed to its
    input for a text without newline, and they fit the limit of the reader,
    [stream_logs] yields one line, the text stripped, and ends normally. *)
Theorem command_echo :
  forall (ch : Child) (text : str) (data : bytes)
         (self : ServerProcess) (p : Process) (w : StreamWriter)
         (later : ServerProcess) (q : Process) (r : StreamReader),
    process self = Some p -> stdin p = Some w ->
    Utf8.encode text = Some data -> newlines text = 0%nat ->
    process later = Some q -> stdout q = Some r ->
    buffer r = List.concat (written (calls (write_command ch text self))) ->
    N.of_nat (List.length data) <= limit r ->
    result (stream_logs later) = Return tt /\
    calls (stream_logs later) = [Yield (strip text)].
Proof.
  intros ch text data self p w later q r Hp Hw He Hn Hq Hr Hb Hl.
  rewrite (write_command_run ch self p w text data Hp Hw He) in Hb.
  unfold calls, pipe_calls in Hb. cbn [snd] in Hb.
  assert (Hb' : buffer r = data ++ [x0a]).
  { rewrite Hb. destruct (on_write ch); cbn; now rewrite app_nil_r. }
  clear Hb.
  assert (Hno : newline_octets data = 0%nat)
    by (now rewrite (encode_newlines text data He)).
  rewrite (stream_logs_run later q r Hq Hr), Hb',
    (iter_lines_one_line data Hno).
  assert (Hd : Utf8.decode (data ++ [x0a]) = Some (text ++ [newline]))
    by (apply decode_encode, encode_line, He).
  unfold result, calls. cbn [log_loop fst snd].
  rewrite sep_index_terminated.
  apply N.ltb_ge in Hl. rewrite Hl. unfold decode. rewrite Hd.
  cbn [fst snd]. rewrite (strip_snoc_space text newline eq_refl).
  split; reflexivity.
Qed.

Lemma command_echo_witness :
  calls (stream_logs (Sample.running (pyb "  list " ++ [x0a]))) =
  [Yield (py "list")].
Proof.
  exact (proj2 (command_echo Sample.obedient (py "  list ") (pyb "  list ")
                  (Sample.running []) (Sample.child [] None) {| sent := [] |}
                  (Sample.running (pyb "  list " ++ [x0a]))
                  (Sample.child (pyb "  list " ++ [x0a]) None)
                  {| buffer := pyb "  list " ++ [x0a];
                     limit := DEFAULT_LIMIT |}
                  eq_refl eq_refl eq_refl eq_refl eq_refl eq_refl eq_refl
                  ltac:(cbv; discriminate))).
Defined.

(* ================================================================== *)
(** ** More on [start] *)
(* ================================================================== *)

Lemma launch_launchable (os : OS) (self : ServerProcess) :
  launchable os self = true -> launch os self = Return (fresh_handle os).
Proof.
  unfold launchable, launch_clear, launch, spawn. cbn [command_line].
  intros H. apply andb_true_iff in H as [H Hw].
  apply andb_true_iff in H as [Hc Hd].
  destruct (other_fault os _ (working_dir self)); [discriminate Hc|].
  destruct (first_error _); [discriminate Hc|].
  rewrite Hd. cbn [negb].
  destruct (which os (py "java")); try discriminate Hw. reflexivity.
Qed.

Lemma start_launched (os : OS) (self : ServerProcess) (q : Process) :
  result (is_running self) = Return false ->
  launch os self = Return q ->
  start os self =
  (Return true, with_process (Some q) self,
   [ Exec [ py "java"; py "-Xms" ++ min_mem self;
            py "-Xmx" ++ max_mem self; py "-jar"; jar_path self;
            py "nogui" ]
          (working_dir self) PIPE PIPE STDOUT ]).
Proof.
  intros Hr Hl. rewrite (start_run os self Hr).
  unfold launch, command_line in Hl. rewrite Hl. reflexivity.
Qed.

(** X12. A handle whose child has exited does not stand in the way of a
    launch: [start] makes the launch and, when the launch succeeds, returns
    [True] and puts the new handle in the place of the old one, which it
    neither stops nor kills nor waits for. *)
Theorem start_replaces_exited_handle :
  forall (os : OS) (self : ServerProcess) (p q : Process) (rc : Z),
    process self = Some p -> returncode p = Some rc ->
    launch os self = Return q ->
    start os self =
    (Return true, with_process (Some q) self,
     [ Exec [ py "java"; py "-Xms" ++ min_mem self;
              py "-Xmx" ++ max_mem self; py "-jar"; jar_path self;
              py "nogui" ]
            (working_dir self) PIPE PIPE STDOUT ]).
Proof.
  intros os self p q rc Hp Hrc Hl.
  assert (Hr : result (is_running self) = Return false)
    by (rewrite is_running_run, Hp, Hrc; reflexivity).
  exact (start_launched os self q Hr Hl).
Qed.

Lemma start_replaces_exited_handle_witness :
  process (after (start Scene.second_launch (Sample.exited 1)))
  = Some (fresh_handle Scene.second_launch).
Proof.
  rewrite (start_replaces_exited_handle Scene.second_launch (Sample.exited 1)
             (Sample.child [] (Some 1%Z)) (fresh_handle Scene.second_launch)
             1%Z eq_refl eq_refl eq_refl).
  reflexivity.
Defined.

(** X13. A launch that fails with another error than [FileNotFoundError]
    is not turned into [False]: the error leaves [start], after the one
    launch, and the object is as it was. *)
Theorem start_lets_other_errors_through :
  forall (os : OS) (self : ServerProcess) (e : exn),
    result (is_running self) = Return false ->
    spawn os [ py "java"; py "-Xms" ++ min_mem self;
               py "-Xmx" ++ max_mem self; py "-jar"; jar_path self;
               py "nogui" ]
          (working_dir self) PIPE PIPE STDOUT = Raise e ->
    e <> FileNotFoundError ->
    start os self =
    (Raise e, self,
     [ Exec [ py "java"; py "-Xms" ++ min_mem self;
              py "-Xmx" ++ max_mem self; py "-jar"; jar_path self;
              py "nogui" ]
            (working_dir self) PIPE PIPE STDOUT ]).
Proof.
  intros os self e Hr Hs Hne. rewrite (start_run os self Hr), Hs.
  destruct e; try reflexivity. now destruct Hne.
Qed.

Lemma start_lets_other_errors_through_witness :
  result (start Scene.locked_runtime Sample.server) = Raise PermissionError.
Proof.
  rewrite (start_lets_other_errors_through Scene.locked_runtime Sample.server
             PermissionError eq_refl eq_refl ltac:(discriminate)).
  reflexivity.
Defined.

(** X14. A supervisor can be started again after it has been stopped: from
    an idle object, a launch that succeeds makes it run; [stop], the pipe
    letting the command pass, brings back the object as it was with no
    handle; and a second launch that succeeds makes it run again, on the
    handle of the new child. *)
Theorem start_stop_start :
  forall (os1 os2 : OS) (ch : Child) (self : ServerProcess)
         (q1 q2 : Process),
    result (is_running self) = Return false ->
    launch os1 self = Return q1 -> launch os2 self = Return q2 ->
    pipe_benign ch = true ->
    let s1 := after (start os1 self) in
    let s2 := after (stop ch s1) in
    let s3 := after (start os2 s2) in
    result (start os1 self) = Return true /\
    result (is_running s1) = Return true /\
    result (stop ch s1) = Return tt /\
    s2 = with_process None self /\
    result (start os2 s2) = Return true /\
    s3 = with_process (Some q2) self /\
    result (is_running s3) = Return true.
Proof.
  intros os1 os2 ch self q1 q2 Hr H1 H2 Hb s1 s2 s3.
  pose proof (start_launched os1 self q1 Hr H1) as E1.
  assert (Hq1 : q1 = fresh_handle os1)
    by (apply (spawn_piped os1 _ _ _ _ H1)).
  assert (Hq2 : q2 = fresh_handle os2)
    by (apply (spawn_piped os2 _ _ _ _ H2)).
  assert (Hs1 : s1 = with_process (Some q1) self)
    by (subst s1; now rewrite E1).
  assert (E2 : stop ch s1 =
               (Return tt, with_process None self,
                pipe_calls ch (new_pid os1) (pyb "stop" ++ [x0a]) ++
                wait_calls ch (new_pid os1))).
  { rewrite Hs1, Hq1.
    exact (stop_run_piped ch (with_process (Some (fresh_handle os1)) self)
             (fresh_handle os1) {| sent := [] |} eq_refl eq_refl eq_refl Hb). }
  assert (Hs2 : s2 = with_process None self)
    by (subst s2; now rewrite E2).
  assert (E3 : start os2 s2 =
               (Return true, with_process (Some q2) self,
                [ Exec [ py "java"; py "-Xms" ++ min_mem self;
                         py "-Xmx" ++ max_mem self; py "-jar"; jar_path self;
                         py "nogui" ]
                       (working_dir self) PIPE PIPE STDOUT ])).
  { rewrite Hs2.
    exact (start_launched os2 (with_process None self) q2 eq_refl H2). }
  assert (Hs3 : s3 = with_process (Some q2) self)
    by (subst s3; now rewrite E3).
  rewrite E1, E2, E3, Hs1, Hs3, Hq1, Hq2. repeat split; try assumption.
Qed.

Lemma start_stop_start_witness :
  after (start Scene.second_launch
           (after (stop Sample.stubborn
                     (after (start Sample.os Sample.server)))))
  = with_process (Some (fresh_handle Scene.second_launch)) Sample.server.
Proof.
  exact (proj1 (proj2 (proj2 (proj2 (proj2 (proj2
           (start_stop_start Sample.os Scene.second_launch Sample.stubborn
              Sample.server (fresh_handle Sample.os)
              (fresh_handle Scene.second_launch)
              eq_refl eq_refl eq_refl eq_refl))))))).
Defined.

(* ================================================================== *)
(** ** Invariants over the life of a supervisor *)
(* ================================================================== *)

Lemma same_config_trans (a b c : ServerProcess) :
  same_config a b -> same_config b c -> same_config a c.
Proof.
  intros (H1 & H2 & H3 & H4) (K1 & K2 & K3 & K4).
  repeat split; congruence.
Qed.

Lemma start_keeps_config (os : OS) (self : ServerProcess) :
  same_config (after (start os self)) self.
Proof.
  rewrite start_total.
  destruct (result (is_running self)) as [[]|e];
    try apply same_config_refl;
    destruct (spawn _ _ _ _ _ _); repeat split.
Qed.

Lemma write_command_keeps_config (ch : Child) (text : str)
      (self : ServerProcess) :
  same_config (after (write_command ch text self)) self.
Proof.
  rewrite write_command_total.
  destruct (process self) as [p|]; [|apply same_config_refl].
  destruct (stdin p) as [w|]; [|apply same_config_refl].
  destruct (Utf8.encode (text ++ [newline])); [|apply same_config_refl].
  unfold after. cbn [fst snd].
  destruct (on_write ch); repeat split.
Qed.

Lemma stream_logs_keeps_config (self : ServerProcess) :
  same_config (after (stream_logs self)) self.
Proof.
  destruct (process self) as [p|] eqn:Hp.
  2:{ assert (E : stream_logs self = (Return tt, self, []))
        by (run_py; now rewrite Hp).
      rewrite E. apply same_config_refl. }
  destruct (stdout p) as [r|] eqn:Hr.
  2:{ assert (E : stream_logs self = (Return tt, self, []))
        by (run_py; now rewrite Hp, Hr).
      rewrite E. apply same_config_refl. }
  rewrite (stream_logs_run self p r Hp Hr). repeat split.
Qed.

Lemma stop_keeps_config (ch : Child) (self : ServerProcess) :
  same_config (after (stop ch self)) self.
Proof.
  rewrite stop_total.
  destruct (process self) as [p|]; [|apply same_config_refl].
  destruct (returncode p); [repeat split|].
  pose proof (write_command_keeps_config ch (py "stop") self) as H.
  destruct (write_command ch (py "stop") self) as [[[[]|e] s1] t];
    [repeat split | exact H].
Qed.

(** X15. No method ever changes the configuration: after [start], [stop],
    [write_command] or [stream_logs], however the call ends, the archive
    path, the working directory and the two memory settings are those the
    object was built with. *)
Theorem methods_keep_config :
  forall (os : OS) (ch : Child) (text : str) (self : ServerProcess),
    same_config (after (start os self)) self /\
    same_config (after (stop ch self)) self /\
    same_config (after (write_command ch text self)) self /\
    same_config (after (stream_logs self)) self.
Proof.
  intros os ch text self. split; [apply start_keeps_config|].
  split; [apply stop_keeps_config|].
  split; [apply write_command_keeps_config | apply stream_logs_keeps_config].
Qed.

Lemma write_command_keeps_piped (ch : Child) (text : str)
      (self : ServerProcess) :
  handle_piped self -> handle_piped (after (write_command ch text self)).
Proof.
  intros H. rewrite write_command_total.
  destruct (process self) as [p|] eqn:Hp; [|exact H].
  destruct (stdin p) as [w|] eqn:Hw; [|exact H].
  destruct (Utf8.encode (text ++ [newline])); [|exact H].
  unfold after. cbn [fst snd]. destruct (on_write ch); [exact H|].
  intros q [= <-]. destruct (H p Hp) as [_ Hout].
  split; [discriminate | exact Hout].
Qed.

Lemma stream_logs_keeps_piped (self : ServerProcess) :
  handle_piped self -> handle_piped (after (stream_logs self)).
Proof.
  intros H.
  destruct (process self) as [p|] eqn:Hp.
  2:{ assert (E : stream_logs self = (Return tt, self, []))
        by (run_py; now rewrite Hp).
      now rewrite E. }
  destruct (stdout p) as [r|] eqn:Hr.
  2:{ assert (E : stream_logs self = (Return tt, self, []))
        by (run_py; now rewrite Hp, Hr).
      now rewrite E. }
  rewrite (stream_logs_run self p r Hp Hr). unfold after. cbn [fst snd].
  intros q [= <-]. destruct (H p Hp) as [Hin _].
  split; [exact Hin | discriminate].
Qed.

Lemma start_keeps_piped (os : OS) (self : ServerProcess) :
  handle_piped self -> handle_piped (after (start os self)).
Proof.
  intros H. rewrite start_total.
  destruct (result (is_running self)) as [[]|e]; try exact H;
    (destruct (spawn _ _ _ _ _ _) as [p|e'] eqn:Hs; [|exact H]);
    intros q [= <-]; apply spawn_piped in Hs; subst p;
    split; discriminate.
Qed.

Lemma stop_keeps_piped (ch : Child) (self : ServerProcess) :
  handle_piped self -> handle_piped (after (stop ch self)).
Proof.
  intros H. rewrite stop_total.
  destruct (process self) as [p|] eqn:Hp; [|exact H].
  destruct (returncode p); [intros q; discriminate|].
  pose proof (write_command_keeps_piped ch (py "stop") self H) as Hw.
  destruct (write_command ch (py "stop") self) as [[[[]|e] s1] t];
    [intros q; discriminate | exact Hw].
Qed.

Lemma step_keeps (s s' : ServerProcess) :
  step s s' -> handle_piped s -> handle_piped s' /\ same_config s' s.
Proof.
  intros Hstep H. destruct Hstep.
  - split; [now apply start_keeps_piped | apply start_keeps_config].
  - split; [now apply stop_keeps_piped | apply stop_keeps_config].
  - split; [now apply write_command_keeps_piped|].
    apply write_command_keeps_config.
  - split; [now apply stream_logs_keeps_piped|].
    apply stream_logs_keeps_config.
  - unfold child_exits.
    destruct (process s) as [p|] eqn:Hp; [|split; [exact H | repeat split]].
    destruct (returncode p); [split; [exact H | repeat split]|].
    split; [|repeat split]. intros q [= <-]. exact (H p Hp).
  - unfold child_prints.
    destruct (process s) as [p|] eqn:Hp; [|split; [exact H | repeat split]].
    destruct (stdout p) as [r|] eqn:Hr; [|split; [exact H | repeat split]].
    split; [|repeat split]. intros q [= <-].
    destruct (H p Hp) as [Hin _]. split; [exact Hin | discriminate].
Qed.

Lemma reachable_piped (s0 s : ServerProcess) :
  process s0 = None -> reachable s0 s -> handle_piped s.
Proof.
  intros H0 Hr. induction Hr as [|s s' _ IH Hstep].
  - intros p Hp. congruence.
  - exact (proj1 (step_keeps s s' Hstep IH)).
Qed.

(** X16. Through the whole life of a supervisor that started without
    handle (as [__init__] builds it), whatever is called on it, however the
    calls end and whatever the child does, a handle that the supervisor
    holds has both of its pipes, and the configuration is the initial
    one. *)
Theorem reachable_handle_piped :
  forall s0 s : ServerProcess,
    process s0 = None -> reachable s0 s ->
    handle_piped s /\ same_config s s0.
Proof.
  intros s0 s H0 Hr. induction Hr as [|s s' _ [IHp IHc] Hstep].
  - split; [intros p Hp; congruence | apply same_config_refl].
  - destruct (step_keeps s s' Hstep IHp) as [Hp Hc].
    split; [exact Hp | exact (same_config_trans _ _ _ Hc IHc)].
Qed.

Lemma reachable_handle_piped_witness :
  handle_piped (child_exits 1 (after (start Sample.os Sample.server))) /\
  same_config (child_exits 1 (after (start Sample.os Sample.server)))
              Sample.server.
Proof.
  apply (reachable_handle_piped Sample.server); [reflexivity|].
  eapply reach_step; [eapply reach_step; [apply reach_init|]|].
  - apply (step_start Sample.os).
  - apply (step_child_exits 1).
Defined.

(** X17. In every state that a supervisor built by [__init__] can come to,
    [stop] on a handle whose child has not exited begins by handing [stop]
    and a newline to the input pipe of that child, whatever the child then
    answers; and [write_command] of a text that has an encoding begins by
    handing that encoding and a newline to it. *)
Theorem reachable_live_handle_is_written :
  forall (s0 s : ServerProcess) (p : Process) (ch : Child),
    process s0 = None -> reachable s0 s ->
    process s = Some p ->
    (returncode p = None ->
     exists more,
       calls (stop ch s) = StdinWrite (pid p) (pyb "stop" ++ [x0a]) :: more) /\
    (forall text data, Utf8.encode text = Some data ->
     exists more,
       calls (write_command ch text s) =
       StdinWrite (pid p) (data ++ [x0a]) :: more).
Proof.
  intros s0 s p ch H0 Hr Hp.
  pose proof (reachable_piped s0 s H0 Hr) as Hpi.
  destruct (Hpi p Hp) as [Hin _].
  destruct (stdin p) as [w|] eqn:Hw; [clear Hin | now destruct Hin].
  split.
  - intros Hrc. rewrite stop_total, Hp, Hrc.
    rewrite (write_command_run ch s p w (py "stop") (pyb "stop") Hp Hw eq_refl).
    unfold pipe_calls.
    destruct (on_write ch) as [e|];
      [destruct (exn_eqb e BrokenPipeError)
      |destruct (on_drain ch) as [e|];
       [destruct (exn_eqb e BrokenPipeError)|]];
      unfold calls; cbn; eauto.
  - intros text data He.
    rewrite (write_command_run ch s p w text data Hp Hw He).
    unfold calls, pipe_calls. cbn. eauto.
Qed.

Lemma reachable_live_handle_is_written_witness :
  exists more,
    calls (stop Sample.hung_up (after (start Sample.os Sample.server))) =
    StdinWrite 4242 (pyb "stop" ++ [x0a]) :: more.
Proof.
  refine (proj1 (reachable_live_handle_is_written Sample.server
                   (after (start Sample.os Sample.server))
                   (Sample.child [] None) Sample.hung_up eq_refl _ eq_refl)
            eq_refl).
  eapply reach_step; [apply reach_init | apply (step_start Sample.os)].
Defined.

(** *** Going on after a line that does not decode *)

Lemma iter_lines_tail (buf : bytes) (pre rest : list bytes) :
  iter_lines buf = pre ++ rest -> exists buf', rest = iter_lines buf'.
Proof.
  revert buf. induction pre as [|l pre IH]; intros buf H.
  - exists buf. now rewrite H.
  - destruct buf as [|b buf]; [discriminate|].
    rewrite iter_lines_readline in H. injection H as _ H.
    exact (IH _ H).
Qed.

Lemma iter_lines_concat_tail (buf : bytes) (pre rest : list bytes) :
  iter_lines buf = pre ++ rest -> iter_lines (List.concat rest) = rest.
Proof.
  intros H. destruct (iter_lines_tail buf pre rest H) as [buf' ->].
  now rewrite iter_lines_concat.
Qed.

(** X18. A line that does not decode costs that line only: after
    [stream_logs] has ended with [UnicodeDecodeError], a second
    [stream_logs] goes on with the lines that follow the bad one; when these
    are within the limit and decode, it yields them, stripped, in order, and
    ends normally. *)
Theorem stream_logs_resumes_after_bad_line :
  forall (self : ServerProcess) (p : Process) (r : StreamReader)
         (good rest : list bytes) (bad : bytes) (ss ss' : list str),
    process self = Some p -> stdout p = Some r ->
    iter_lines (buffer r) = good ++ bad :: rest ->
    within_limit (limit r) good = true -> Forall2 log_line good ss ->
    sep_index bad <= limit r -> Utf8.decode bad = None ->
    within_limit (limit r) rest = true -> Forall2 log_line rest ss' ->
    let later := after (stream_logs self) in
    result (stream_logs later) = Return tt /\
    calls (stream_logs later) = List.map Yield ss'.
Proof.
  intros self p r good rest bad ss ss' Hp Hr Hi Hl Hd Hb Hu Hl' Hd' later.
  subst later. rewrite (stream_logs_run self p r Hp Hr), Hi.
  rewrite (log_loop_app_good _ _ _ _ Hl Hd). cbn [log_loop].
  apply N.ltb_ge in Hb. rewrite Hb. unfold decode. rewrite Hu.
  unfold after. cbn [fst snd].
  set (q := set_stdout _ p).
  rewrite (stream_logs_run (with_process (Some q) self) q
             {| buffer := List.concat rest; limit := limit r |}
             eq_refl eq_refl).
  cbn [buffer limit].
  assert (Hrest : iter_lines (List.concat rest) = rest).
  { apply (iter_lines_concat_tail (buffer r) (good ++ [bad])).
    now rewrite <- app_assoc. }
  rewrite Hrest, (log_loop_good _ _ _ Hl' Hd'). split; reflexivity.
Qed.

Lemma stream_logs_resumes_after_bad_line_witness :
  calls (stream_logs
           (after (stream_logs
                     (Sample.running (pyb "A" ++ [x0a; xff; x0a; x42])))))
  = [Yield (py "B")].
Proof.
  refine (proj2 (stream_logs_resumes_after_bad_line
                   (Sample.running (pyb "A" ++ [x0a; xff; x0a; x42]))
                   (Sample.child (pyb "A" ++ [x0a; xff; x0a; x42]) None)
                   {| buffer := pyb "A" ++ [x0a; xff; x0a; x42];
                      limit := DEFAULT_LIMIT |}
                   [pyb "A" ++ [x0a]] [[x42]] [xff; x0a] [py "A"] [py "B"]
                   eq_refl eq_refl eq_refl eq_refl _ _ eq_refl eq_refl _)).
  - repeat constructor. exists (py "A" ++ [newline]). split; reflexivity.
  - cbv. discriminate.
  - repeat constructor. exists (py "B"). split; reflexivity.
Defined.

(** X19. Neither [write_command] nor [stream_logs] looks at the exit
    status: on the handle of a child that has exited they end and call
    exactly as on the same handle with no exit status, so a command is still
    handed to the pipe of a dead child, and what it wrote can still be
    read. *)
Theorem exit_status_is_not_consulted :
  forall (ch : Child) (text : str) (self : ServerProcess) (p : Process)
         (rc : option Z),
    process self = Some p ->
    let self' := with_process (Some (set_returncode rc p)) self in
    result (write_command ch text self') = result (write_command ch text self)
    /\ calls (write_command ch text self') = calls (write_command ch text self)
    /\ result (stream_logs self') = result (stream_logs self)
    /\ calls (stream_logs self') = calls (stream_logs self).
Proof.
  intros ch text self p rc Hp self'. subst self'.
  rewrite !write_command_total, Hp. cbn [process with_process set_returncode
    stdin pid].
  split; [|split].
  - destruct (stdin p); [|reflexivity].
    destruct (Utf8.encode (text ++ [newline])); reflexivity.
  - destruct (stdin p); [|reflexivity].
    destruct (Utf8.encode (text ++ [newline])); reflexivity.
  - destruct (stdout p) as [r|] eqn:Hr.
    + rewrite (stream_logs_run self p r Hp Hr).
      rewrite (stream_logs_run (with_process (Some (set_returncode rc p)) self)
                 (set_returncode rc p) r eq_refl Hr).
      split; reflexivity.
    + assert (E1 : stream_logs self = (Return tt, self, []))
        by (run_py; now rewrite Hp, Hr).
      assert (E2 : stream_logs
                     (with_process (Some (set_returncode rc p)) self) =
                   (Return tt,
                    with_process (Some (set_returncode rc p)) self, []))
        by (run_py; now rewrite Hr).
      rewrite E1, E2. split; reflexivity.
Qed.

Lemma exit_status_is_not_consulted_witness :
  calls (write_command Sample.obedient (py "list") (Sample.exited 1)) =
  calls (write_command Sample.obedient (py "list") (Sample.running [])).
Proof.
  exact (proj1 (proj2 (exit_status_is_not_consulted Sample.obedient (py "list")
                         (Sample.running []) (Sample.child [] None)
                         (Some 1%Z) eq_refl))).
Defined.

(** X20. What [write_command] encodes, the decoding of [stream_logs]
    gives back: the strict decoder makes of the encoding of a text exactly
    that text, and of the encoding followed by more octets the text
    followed by what it makes of those octets. *)
Theorem codec_round_trip :
  forall (s : str) (bs rest : bytes),
    Utf8.encode s = Some bs ->
    Utf8.decode bs = Some s /\
    Utf8.decode (bs ++ rest) = option_map (app s) (Utf8.decode rest).
Proof.
  assert (H : forall (s : str) (bs rest : bytes),
             Utf8.encode s = Some bs ->
             Utf8.decode (bs ++ rest) = option_map (app s) (Utf8.decode rest)).
  { unfold Utf8.decode. induction s as [|c s IH]; intros bs rest H; cbn in H.
    - injection H as <-. cbn.
      now destruct (Utf8.decode_from Utf8.Start rest).
    - destruct (Utf8.encode_cp c) as [x|] eqn:Hc; [|discriminate].
      destruct (Utf8.encode s) as [y|]; [|discriminate].
      injection H as <-. rewrite <- app_assoc.
      rewrite (decode_encode_cp c x (y ++ rest) Hc), (IH y rest eq_refl).
      now destruct (Utf8.decode_from Utf8.Start rest). }
  intros s bs rest He. split; [|exact (H s bs rest He)].
  specialize (H s bs [] He). rewrite !app_nil_r in H.
  rewrite H. cbn. now rewrite app_nil_r.
Qed.

Lemma codec_round_trip_witness :
  Utf8.decode [x73; x61; x79; x20; xe2; x82; xac; xf0; x9f; x98; x80]
  = Some (py "say " ++ [0x20AC; 0x1F600]).
Proof.
  apply (codec_round_trip (py "say " ++ [0x20AC; 0x1F600]) _ []).
  reflexivity.
Defined.
